(** * Receitas da Avó: the recipe adapter and its three view models

    A shallow embedding of the JavaScript sources:
    - [services/api.js]: the two record shapes, [normalizeRecipe],
      [denormalizeRecipe] and the calls made to the remote sheet;
    - [pages/Home.jsx]: search filter and pagination;
    - [pages/RecipeDetail.jsx]: the like button;
    - [pages/AdminDashboard.jsx]: create, update and delete.

    JavaScript objects are finite maps from field names to primitive
    values; asynchronous functions are trees that suspend at every remote
    call, run by an event loop that interleaves them with user actions. *)

From Stdlib Require Import ZArith String Ascii List Bool Lia.
From stdpp Require Import base option list gmap strings pretty.

Local Open Scope string_scope.
Local Open Scope list_scope.
Local Open Scope Z_scope.

(** ** JavaScript primitive values *)

Module JS.

(** Numbers are the integers (identifiers, like counts, page numbers) and
    [NaN]; fractions and infinities never arise in this program. *)
Inductive value : Type :=
| VUndef
| VNull
| VBool (b : bool)
| VNum (n : Z)
| VNaN
| VStr (s : string).

#[export] Instance value_eq_dec : EqDecision value.
Proof. solve_decision. Defined.

(** A plain object: a finite map from field names to primitive values. *)
Abbreviation obj := (gmap string value).

(** [o.f]: reading a field that is not there gives [undefined]. *)
Definition get (f : string) (o : obj) : value := default VUndef (o !! f).

(** ToBoolean. *)
Definition truthy (v : value) : bool :=
  match v with
  | VUndef | VNull | VNaN => false
  | VBool b => b
  | VNum n => negb (n =? 0)
  | VStr s => negb (String.eqb s "")
  end.

(** [a || b]. *)
Definition or (a b : value) : value := if truthy a then a else b.

(** [a === b] and [a !== b]. *)
Definition strict_eq (a b : value) : bool :=
  match a, b with
  | VNaN, _ | _, VNaN => false
  | _, _ => bool_decide (a = b)
  end.

Definition strict_ne (a b : value) : bool := negb (strict_eq a b).

(** SameValueZero, the comparison of [Array.prototype.includes]. *)
Definition same_value_zero (a b : value) : bool := bool_decide (a = b).

Definition includes (l : list value) (x : value) : bool :=
  existsb (same_value_zero x) l.

(** ToString, as applied by template literals and by [+] on strings. *)
Definition to_string (v : value) : string :=
  match v with
  | VUndef => "undefined"
  | VNull => "null"
  | VBool true => "true"
  | VBool false => "false"
  | VNum n => pretty n
  | VNaN => "NaN"
  | VStr s => s
  end.

(** ToNumber on the non-string primitives ([None] is [NaN]). *)
Definition to_number (v : value) : option Z :=
  match v with
  | VNull => Some 0
  | VBool true => Some 1
  | VBool false => Some 0
  | VNum n => Some n
  | _ => None
  end.

(** [a + b]: concatenation as soon as one side is a string, numeric
    addition otherwise. *)
Definition add (a b : value) : value :=
  match a, b with
  | VStr s, _ => VStr (s +:+ to_string b)
  | _, VStr t => VStr (to_string a +:+ t)
  | _, _ =>
      match to_number a, to_number b with
      | Some x, Some y => VNum (x + y)
      | _, _ => VNaN
      end
  end.

(** What [JSON.parse (JSON.stringify v)] gives back for an array element. *)
Definition json_element (v : value) : value :=
  match v with
  | VUndef | VNaN => VNull
  | _ => v
  end.

(** *** [parseInt] on decimal and [0x] input *)

Definition is_space (c : ascii) : bool :=
  let n := nat_of_ascii c in
  ((9 <=? n) && (n <=? 13))%nat || (n =? 32)%nat.

Fixpoint skip_spaces (s : string) : string :=
  match s with
  | String c r => if is_space c then skip_spaces r else s
  | EmptyString => s
  end.

Definition digit_of (radix : Z) (c : ascii) : option Z :=
  let n := Z.of_nat (nat_of_ascii c) in
  let d :=
    if (48 <=? n) && (n <=? 57) then Some (n - 48)
    else if (97 <=? n) && (n <=? 122) then Some (n - 87)
    else if (65 <=? n) && (n <=? 90) then Some (n - 55)
    else None in
  match d with
  | Some k => if k <? radix then Some k else None
  | None => None
  end.

(** The longest prefix of digits, read in [radix]; [None] when it is empty. *)
Fixpoint digits (radix : Z) (s : string) (acc : option Z) : option Z :=
  match s with
  | String c r =>
      match digit_of radix c with
      | Some d => digits radix r (Some (default 0 acc * radix + d))
      | None => acc
      end
  | EmptyString => acc
  end.

Definition parseInt (s : string) : value :=
  let s := skip_spaces s in
  let '(sign, s) :=
    match s with
    | String "-" r => (-1, r)
    | String "+" r => (1, r)
    | _ => (1, s)
    end in
  let '(radix, s) :=
    match s with
    | String "0" (String "x" r) | String "0" (String "X" r) => (16, r)
    | _ => (10, s)
    end in
  match digits radix s None with
  | Some n => VNum (sign * n)
  | None => VNaN
  end.

(** Texts made of decimal digits only. *)
Definition is_digit (c : ascii) : bool :=
  let n := nat_of_ascii c in ((48 <=? n) && (n <=? 57))%nat.

Fixpoint all_digits (s : string) : bool :=
  match s with
  | String c r => is_digit c && all_digits r
  | EmptyString => true
  end.

End JS.
Export JS.

(** ** The remote store adapter: record shapes *)

Module Api.

(** Sheety (Google Sheets) -> frontend. *)
Definition normalizeRecipe (receita : obj) : obj :=
  list_to_map
    [ ("id", get "id" receita);
      ("titulo", or (get "titulo" receita) (VStr ""));
      ("imagem_url", or (get "imagem" receita) (VStr ""));
      ("tempo_preparo", or (get "tempo" receita) (VStr ""));
      ("ingredientes", or (get "ingredientes" receita) (VStr ""));
      ("instrucoes", or (get "preparacao" receita) (VStr ""));
      ("likes", or (get "likes" receita) (VNum 0));
      ("categoria", or (get "categoria" receita) (VStr "Sem categoria"));
      ("categoria_id", or (get "categoria" receita) (VStr "")) ].

(** Frontend form -> Sheety. *)
Definition denormalizeRecipe (data : obj) : obj :=
  list_to_map
    [ ("titulo", get "titulo" data);
      ("imagem", get "imagem_url" data);
      ("tempo", get "tempo_preparo" data);
      ("ingredientes", get "ingredientes" data);
      ("preparacao", get "instrucoes" data);
      ("categoria", get "categoria_id" data) ].

(** The columns of a sheet row that hold text. *)
Definition text_columns : list string :=
  ["titulo"; "imagem"; "tempo"; "ingredientes"; "preparacao"; "categoria"].

(** The text column behind each text field of the UI shape. *)
Definition ui_source : list (string * string) :=
  [ ("titulo", "titulo"); ("imagem_url", "imagem"); ("tempo_preparo", "tempo");
    ("ingredientes", "ingredientes"); ("instrucoes", "preparacao") ].

Definition ui_fields : list string :=
  ["id"; "titulo"; "imagem_url"; "tempo_preparo"; "ingredientes";
   "instrucoes"; "likes"; "categoria"; "categoria_id"].

End Api.
Export Api.

(** ** Asynchronous functions and the transport *)

Module Async.

(** The three resources under the base URL; [Receita id] is
    [`/receitas/${id}`] with the identifier already turned into text. *)
Inductive path : Type :=
| Categorias
| Receitas
| Receita (id : string).

(** A request made through axios.  The body is the record sent under the
    ["receita"] key. *)
Inductive request : Type :=
| GET (p : path)
| POST (p : path) (body : obj)
| PUT (p : path) (body : obj)
| DELETE (p : path).

(** [response.data]: each field the code reads, [None] when it is missing
    or falsy. *)
Record data : Type := Data {
  receita : option obj;
  receitas : option (list obj);
  categorias : option (list obj)
}.

(** The axios promise either resolves with the response or rejects. *)
Inductive reply : Type :=
| Rejected
| Resolved (d : data).

(** What a [throw] can carry here. *)
Inductive error : Type :=
| AxiosError
| TypeError.

(** An async function over a component state [W]: it returns, throws,
    awaits a remote call, updates the state or writes to the console.
    Under [Promise.all] several calls are in flight for one function:
    [Await r k others] awaits the call [r] and, with it, the calls
    [others]; the function goes on as the continuation of the call that
    is answered first says, and that continuation awaits what is still
    in flight.  [Spawn p k] calls the async function [p] without
    awaiting it: [p] goes on by itself and nobody reads its result. *)
#[warnings="-register-all"]
Inductive io (W A : Type) : Type :=
| Ret (a : A)
| Throw (e : error)
| Await (r : request) (k : reply → io W A)
    (others : list (request * (reply → io W A)))
| Modify (f : W → W) (k : io W A)
| Log (msg : string) (k : io W A)
| Spawn (p : io W unit) (k : io W A).

Arguments Ret {W A} a.
Arguments Throw {W A} e.
Arguments Await {W A} r k others.
Arguments Modify {W A} f k.
Arguments Log {W A} msg k.
Arguments Spawn {W A} p k.

Fixpoint bind {W A B} (p : io W A) (f : A → io W B) : io W B :=
  match p with
  | Ret a => f a
  | Throw e => Throw e
  | Await r k others =>
      Await r (λ x, bind (k x) f)
        (List.map (λ rk, (rk.1, λ x, bind (rk.2 x) f)) others)
  | Modify g k => Modify g (bind k f)
  | Log m k => Log m (bind k f)
  | Spawn d k => Spawn d (bind k f)
  end.

#[export] Instance io_ret {W} : MRet (io W) := λ A a, Ret a.
#[export] Instance io_bind {W} : MBind (io W) := λ A B f p, bind p f.

(** [try { p } catch (e) { h e }].  What [p] spawned is not awaited, so
    what it throws is not caught here. *)
Fixpoint catch {W A} (p : io W A) (h : error → io W A) : io W A :=
  match p with
  | Ret a => Ret a
  | Throw e => h e
  | Await r k others =>
      Await r (λ x, catch (k x) h)
        (List.map (λ rk, (rk.1, λ x, catch (rk.2 x) h)) others)
  | Modify g k => Modify g (catch k h)
  | Log m k => Log m (catch k h)
  | Spawn d k => Spawn d (catch k h)
  end.

(** [try { p } finally { q }]: [q] runs on both exits, then the exit of
    [p] is resumed. *)
Fixpoint finally {W A} (p : io W A) (q : io W unit) : io W A :=
  match p with
  | Ret a => bind q (λ _, Ret a)
  | Throw e => bind q (λ _, Throw e)
  | Await r k others =>
      Await r (λ x, finally (k x) q)
        (List.map (λ rk, (rk.1, λ x, finally (rk.2 x) q)) others)
  | Modify g k => Modify g (finally k q)
  | Log m k => Log m (finally k q)
  | Spawn d k => Spawn d (finally k q)
  end.

(** [await Promise.all([p, q])].  Both functions are called before
    anything is awaited, [p] first, each running up to its first remote
    call; from then on the calls of both are in flight together and are
    answered in any order.  The result is the pair of both results once
    both have returned.  As soon as one of them throws, the whole throws
    that exception, while the other goes on by itself. *)
Fixpoint promise_all {W B C} (p : io W B) : io W C → io W (B * C) :=
  fix right (q : io W C) : io W (B * C) :=
    match p with
    | Ret b => bind q (λ c, Ret (b, c))
    | Throw e => Spawn (bind q (λ _, Ret tt)) (Throw e)
    | Modify f k => Modify f (promise_all k q)
    | Log m k => Log m (promise_all k q)
    | Spawn d k => Spawn d (promise_all k q)
    | Await r1 k1 o1 =>
        match q with
        | Ret c => bind p (λ b, Ret (b, c))
        | Throw e => Spawn (bind p (λ _, Ret tt)) (Throw e)
        | Modify f k => Modify f (right k)
        | Log m k => Log m (right k)
        | Spawn d k => Spawn d (right k)
        | Await r2 k2 o2 =>
            Await r1 (λ x, promise_all (k1 x) q)
              (List.map (λ rk, (rk.1, λ x, promise_all (rk.2 x) q)) o1
               ++ (r2, λ y, right (k2 y))
               :: List.map (λ rk, (rk.1, λ y, right (rk.2 y))) o2)
        end
    end.

(** An async function of a component, run inside a larger state of
    which the component's state is the part [get], written back by
    [put]. *)
Fixpoint zoom {W V A} (get : V → W) (put : W → V → V) (p : io W A) : io V A :=
  match p with
  | Ret a => Ret a
  | Throw e => Throw e
  | Await r k others =>
      Await r (λ x, zoom get put (k x))
        (List.map (λ rk, (rk.1, λ x, zoom get put (rk.2 x))) others)
  | Modify f k => Modify (λ v, put (f (get v)) v) (zoom get put k)
  | Log m k => Log m (zoom get put k)
  | Spawn d k => Spawn (zoom get put d) (zoom get put k)
  end.

Definition set {W} (f : W → W) : io W unit := Modify f (Ret tt).
Definition console_error {W} (msg : string) : io W unit := Log msg (Ret tt).

(** [await api.get(...)] and friends. *)
Definition axios {W} (r : request) : io W data :=
  Await r (λ x, match x with
                | Rejected => Throw AxiosError
                | Resolved d => Ret d
                end) [].

(** How an async function ends. *)
Inductive outcome (A : Type) : Type :=
| Returned (a : A)
| Thrown (e : error).

Arguments Returned {A} a.
Arguments Thrown {A} e.

Section Transport.
Context {W S : Type}.

(** The remote side: a state and its answer to each request. *)
Variable serve : S → request → S * reply.

Record run (A : Type) : Type := Run {
  out : outcome A;
  srv : S;
  wld : W;
  logs : list string;
  sent : list (request * reply)
}.

(** Run an async function to its end, every call answered at once (of
    several calls in flight, the first), what it spawns run to its end
    before it goes on. *)
Fixpoint exec_from {A} (p : io W A) (s : S) (w : W) (c : list string)
    (t : list (request * reply)) : run A :=
  match p with
  | Ret a => Run A (Returned a) s w c t
  | Throw e => Run A (Thrown e) s w c t
  | Await r k _ =>
      let '(s', x) := serve s r in
      exec_from (k x) s' w c (t ++ [(r, x)])
  | Modify f k => exec_from k s (f w) c t
  | Log m k => exec_from k s w (c ++ [m]) t
  | Spawn d k =>
      let r := exec_from d s w c t in
      exec_from k (srv unit r) (wld unit r) (logs unit r) (sent unit r)
  end.

Definition exec {A} (p : io W A) (s : S) (w : W) : run A :=
  exec_from p s w [] [].

End Transport.

Arguments Run {W S A}.
Arguments out {W S A}.
Arguments srv {W S A}.
Arguments wld {W S A}.
Arguments logs {W S A}.
Arguments sent {W S A}.

(** *** The event loop

    A component runs one handler at a time up to its next [await]; the
    suspended rest waits for the answer, while the user may act again
    and other answers may arrive. *)

Section Loop.
Context {W S E : Type}.
Variable serve : S → request → S * reply.

(** What each user action runs, given the state of the last render. *)
Variable dispatch : E → W → io W unit.

(** A suspended function: the call it awaits and how it goes on, and
    the other calls it has in flight, each with how the function goes on
    when that one is answered first. *)
Record task : Type := Calls {
  awaiting : request;
  resume : reply → io W unit;
  also : list (request * (reply → io W unit))
}.

Record sys : Type := Sys {
  world : W;
  console : list string;
  pending : list task;
  remote : S;
  history : list (request * reply)
}.

(** The user acts, or a call in flight is answered: [Deliver i] answers
    the call the [i]-th suspended function awaits, [DeliverOther i j]
    the [j]-th of its other calls. *)
Inductive event : Type :=
| User (e : E)
| Deliver (i : nat)
| DeliverOther (i j : nat).

(** Run a handler until it ends or suspends; what it spawned on the way
    is suspended as well.  An exception nobody catches ends it. *)
Fixpoint advance (p : io W unit) (w : W) (c : list string)
    : W * list string * list task :=
  match p with
  | Ret _ => (w, c, [])
  | Throw _ => (w, c, [])
  | Await r k others => (w, c, [Calls r k others])
  | Modify f k => advance k (f w) c
  | Log m k => advance k w (c ++ [m])
  | Spawn d k =>
      let '(w1, c1, ts) := advance d w c in
      let '(w2, c2, ts') := advance k w1 c1 in
      (w2, c2, ts ++ ts')
  end.

Definition start (p : io W unit) (σ : sys) : sys :=
  let '(w, c, ts) := advance p (world σ) (console σ) in
  Sys w c (pending σ ++ ts) (remote σ) (history σ).

(** The call [r] of the [i]-th suspended function is answered and the
    function goes on as [k] says. *)
Definition answer (i : nat) (r : request) (k : reply → io W unit) (σ : sys) : sys :=
  let '(s, x) := serve (remote σ) r in
  let '(w, c, ts) := advance (k x) (world σ) (console σ) in
  Sys w c (delete i (pending σ) ++ ts) s (history σ ++ [(r, x)]).

Definition deliver (i : nat) (σ : sys) : sys :=
  match pending σ !! i with
  | None => σ
  | Some t => answer i (awaiting t) (resume t) σ
  end.

Definition deliver_other (i j : nat) (σ : sys) : sys :=
  match pending σ !! i with
  | None => σ
  | Some t =>
      match also t !! j with
      | None => σ
      | Some rk => answer i rk.1 rk.2 σ
      end
  end.

Definition step (σ : sys) (ev : event) : sys :=
  match ev with
  | User e => start (dispatch e (world σ)) σ
  | Deliver i => deliver i σ
  | DeliverOther i j => deliver_other i j σ
  end.

Definition steps (σ : sys) (evs : list event) : sys := foldl step σ evs.

End Loop.

Arguments task : clear implicits.
Arguments sys : clear implicits.
Arguments event : clear implicits.
Arguments Calls {W}.
Arguments Sys {W S}.
Arguments User {E}.
Arguments Deliver {E}.
Arguments DeliverOther {E}.

(** A function suspended on a single call. *)
Abbreviation Task r k := (Calls r k []).

End Async.
Export Async.

(** ** The remote store adapter: operations *)

Module Calls.

Section Calls.
Context {W : Type}.

(** GET /categorias *)
Definition getCategories : io W (list obj) :=
  catch
    (response ← axios (GET Categorias);
     mret (default [] (categorias response)))
    (λ e, console_error "Erro ao carregar categorias:";; Throw e).

(** One category by id: reads them all, keeps the first whose id is
    strictly equal to [parseInt(id)]; [None] is [null]. *)
Definition getCategoryById (id : value) : io W (option obj) :=
  catch
    (response ← axios (GET Categorias);
     let categorias := default [] (categorias response) in
     mret (List.find (λ c, strict_eq (get "id" c) (parseInt (to_string id)))
             categorias))
    (λ e, console_error "Erro ao carregar categoria:";; Throw e).

(** GET /receitas *)
Definition getRecipes : io W (list obj) :=
  catch
    (response ← axios (GET Receitas);
     mret (normalizeRecipe <$> default [] (receitas response)))
    (λ e, console_error "Erro ao carregar receitas:";; Throw e).

(** GET /receitas/{id}; [None] is the [null] returned when the answer
    carries no record. *)
Definition getRecipeById (id : value) : io W (option obj) :=
  catch
    (response ← axios (GET (Receita (to_string id)));
     match receita response with
     | None => mret None
     | Some r => mret (Some (normalizeRecipe r))
     end)
    (λ e, console_error "Erro ao carregar receita:";; Throw e).

(** [normalizeRecipe(response.data.receita)]: reading a field of
    [undefined] throws. *)
Definition normalize_response (response : data) : io W obj :=
  match receita response with
  | Some r => mret (normalizeRecipe r)
  | None => Throw TypeError
  end.

(** POST /receitas *)
Definition createRecipe (form : obj) : io W obj :=
  catch
    (response ← axios (POST Receitas
                         (<["likes" := VNum 0]> (denormalizeRecipe form)));
     normalize_response response)
    (λ e, console_error "Erro ao criar receita:";; Throw e).

(** PUT /receitas/{id} *)
Definition updateRecipe (id : value) (form : obj) : io W obj :=
  catch
    (response ← axios (PUT (Receita (to_string id)) (denormalizeRecipe form));
     normalize_response response)
    (λ e, console_error "Erro ao atualizar receita:";; Throw e).

(** DELETE /receitas/{id} *)
Definition deleteRecipe (id : value) : io W bool :=
  catch
    (axios (DELETE (Receita (to_string id)));;
     mret true)
    (λ e, console_error "Erro ao eliminar receita:";; Throw e).

(** Reads the current record, adds one to its likes and PUTs the likes
    alone.  [VNull] is the [null] returned when there is no record. *)
Definition likeRecipe (id : value) : io W value :=
  catch
    (receitaRes ← axios (GET (Receita (to_string id)));
     match receita receitaRes with
     | None => mret VNull
     | Some r =>
         let newLikes := add (or (get "likes" r) (VNum 0)) (VNum 1) in
         axios (PUT (Receita (to_string id)) {["likes" := newLikes]});;
         mret newLikes
     end)
    (λ e, console_error "Erro ao dar like:";; Throw e).

(** The adapter's operations, as data. *)
Inductive call : Type :=
| GetCategories
| GetCategoryById (id : value)
| GetRecipes
| GetRecipeById (id : value)
| CreateRecipe (form : obj)
| UpdateRecipe (id : value) (form : obj)
| DeleteRecipe (id : value)
| LikeRecipe (id : value).

Definition perform (c : call) : io W unit :=
  match c with
  | GetCategories => getCategories;; mret tt
  | GetCategoryById id => getCategoryById id;; mret tt
  | GetRecipes => getRecipes;; mret tt
  | GetRecipeById id => getRecipeById id;; mret tt
  | CreateRecipe form => createRecipe form;; mret tt
  | UpdateRecipe id form => updateRecipe id form;; mret tt
  | DeleteRecipe id => deleteRecipe id;; mret tt
  | LikeRecipe id => likeRecipe id;; mret tt
  end.

End Calls.

End Calls.
Export Calls.


(** ** Home: search and pagination *)

Module Home.

(** [s.includes(t)]. *)
Fixpoint str_includes (s t : string) : bool :=
  String.prefix t s ||
  match s with
  | String _ r => str_includes r t
  | EmptyString => false
  end.

(** [l.slice(start, end)], negative indices counted from the end. *)
Definition slice {A} (l : list A) (start stop : Z) : list A :=
  let len := Z.of_nat (length l) in
  let k := if start <? 0 then Z.max (len + start) 0 else Z.min start len in
  let final := if stop <? 0 then Z.max (len + stop) 0 else Z.min stop len in
  take (Z.to_nat (final - k)) (drop (Z.to_nat k) l).

(** [Math.ceil(a / b)] on a count [a] and a positive [b]. *)
Definition ceil_div (a b : Z) : Z := - ((- a) / b).

Definition recipesPerPage : Z := 6.

Section Home.
(** [String.prototype.toLowerCase]. *)
Variable toLowerCase : string → string.

(** The filter callback; calling [toLowerCase] on a titulo that is not a
    string throws, which is [None]. *)
Definition matches (searchTerm : string) (recipe : obj) : option bool :=
  match get "titulo" recipe with
  | VStr t => Some (str_includes (toLowerCase t) (toLowerCase searchTerm))
  | _ => None
  end.

Fixpoint filteredRecipes (recipes : list obj) (searchTerm : string)
    : option (list obj) :=
  match recipes with
  | [] => Some []
  | recipe :: rest =>
      keep ← matches searchTerm recipe;
      others ← filteredRecipes rest searchTerm;
      Some (if keep : bool then recipe :: others else others)
  end.

(** The callback on a collection whose titles are all text. *)
Definition keeps (searchTerm : string) (recipe : obj) : bool :=
  default false (matches searchTerm recipe).

Definition totalPages (filtered : list obj) : Z :=
  ceil_div (Z.of_nat (length filtered)) recipesPerPage.

Definition startIndex (currentPage : Z) : Z := (currentPage - 1) * recipesPerPage.

Definition paginatedRecipes (filtered : list obj) (currentPage : Z) : list obj :=
  slice filtered (startIndex currentPage) (startIndex currentPage + recipesPerPage).

End Home.

(** The claim's wording: the title contains the search text, case ignored. *)
Definition title_contains (lower : string → string) (searchTerm : string)
    (recipe : obj) : Prop :=
  ∃ t before after,
    get "titulo" recipe = VStr t ∧
    lower t = before +:+ lower searchTerm +:+ after.

(** Lower-casing of the ASCII letters, for the examples. *)
Definition ascii_lower (s : string) : string :=
  string_of_list_ascii
    ((λ c : ascii, let n := nat_of_ascii c in
        if ((65 <=? n) && (n <=? 90))%nat then ascii_of_nat (n + 32) else c)
       <$> list_ascii_of_string s).

End Home.

(** ** Session: the simulated login *)

Module Session.

(** [localStorage]: the ['auth_token'] entry. *)
Record storage : Type := Storage {
  auth_token : option string
}.

Inductive login_result : Type :=
| Success (token : string)
| Failure (error : string).

(** [login]; [now] is [Date.now()].  The 300 ms timer it awaits first
    touches nothing. *)
Definition login (now : Z) (username password : string) (st : storage)
    : login_result * storage :=
  if String.eqb username "admin" && String.eqb password "admin" then
    let token := "fake_jwt_token_" +:+ to_string (VNum now) in
    (Success token, Storage (Some token))
  else (Failure "Credenciais inválidas", st).

Definition logout (st : storage) : storage := Storage None.

(** [!!localStorage.getItem('auth_token')]. *)
Definition isAuthenticated (st : storage) : bool :=
  match auth_token st with
  | Some token => truthy (VStr token)
  | None => false
  end.

(** What a route element renders. *)
Inductive rendered : Type :=
| Children
| Navigate (to : string).

Definition PrivateRoute (st : storage) : rendered :=
  if isAuthenticated st then Children else Navigate "/login".

(** *** The login page *)

Record page : Type := Page {
  username : string;
  password : string;
  error : string;
  loading : bool
}.

Definition initial : page := Page "" "" "" false.

Definition setError (e : string) (w : page) : page :=
  Page (username w) (password w) e (loading w).
Definition setLoading (b : bool) (w : page) : page :=
  Page (username w) (password w) (error w) b.

(** The two inputs are named [username] and [password]. *)
Inductive field : Type := Username | Password.

Definition handleChange (name : field) (v : string) (w : page) : page :=
  setError ""
    match name with
    | Username => Page v (password w) (error w) (loading w)
    | Password => Page (username w) v (error w) (loading w)
    end.

(** [handleSubmit] up to its [await]: the state shown while waiting. *)
Definition submitting (w : page) : page := setLoading true (setError "" w).

(** [handleSubmit] after the [await]: [w0] is the render the handler was
    created in, [w] the state when [login] answers.  The result is the
    new state, the new storage and where [navigate] was sent, if
    anywhere. *)
Definition submitted (now : Z) (w0 w : page) (st : storage)
    : page * storage * option string :=
  let '(result, st') := login now (username w0) (password w0) st in
  match result with
  | Success _ => (setLoading false w, st', Some "/admin")
  | Failure e => (setLoading false (setError e w), st', None)
  end.

End Session.

(** ** Home: the whole view *)

Module HomeView.
Import Home.

Record state : Type := State {
  recipes : list obj;
  loading : bool;
  searchTerm : string;
  currentPage : Z
}.

Definition initial : state := State [] true "" 1.

Definition setRecipes (l : list obj) (w : state) : state :=
  State l (loading w) (searchTerm w) (currentPage w).
Definition setLoading (b : bool) (w : state) : state :=
  State (recipes w) b (searchTerm w) (currentPage w).
Definition setCurrentPage (p : Z) (w : state) : state :=
  State (recipes w) (loading w) (searchTerm w) p.

(** [setSearchTerm], with the effect that depends on [searchTerm]: a new
    text puts the page back to 1, the same text changes nothing. *)
Definition setSearchTerm (v : string) (w : state) : state :=
  if String.eqb v (searchTerm w) then w
  else State (recipes w) (loading w) v 1.

Definition loadRecipes : io state unit :=
  finally
    (catch
       (set (setLoading true);;
        data ← getRecipes;
        set (setRecipes data))
       (λ _, console_error "Erro ao carregar receitas:"))
    (set (setLoading false)).

Inductive action : Type :=
| Type_ (v : string)
| Clear
| Previous
| GoTo (p : Z)
| Next.

Section View.
(** [String.prototype.toLowerCase]. *)
Variable toLowerCase : string → string.

(** The page buttons exist when the list is shown, is not empty and has
    more than one page; the page numbers go from 1 to [totalPages]. *)
Definition pagination (w : state) : option Z :=
  if loading w then None
  else
    match filteredRecipes toLowerCase (recipes w) (searchTerm w) with
    | Some filtered =>
        if bool_decide (paginatedRecipes filtered (currentPage w) = [])
        then None
        else if 1 <? totalPages filtered then Some (totalPages filtered)
        else None
    | None => None
    end.

Definition dispatch (a : action) (w : state) : io state unit :=
  match a with
  | Type_ v => set (setSearchTerm v)
  | Clear => if truthy (VStr (searchTerm w)) then set (setSearchTerm "") else mret tt
  | Previous =>
      match pagination w with
      | Some _ =>
          if currentPage w =? 1 then mret tt
          else set (setCurrentPage (currentPage w - 1))
      | None => mret tt
      end
  | GoTo p =>
      match pagination w with
      | Some pages =>
          if (1 <=? p) && (p <=? pages) then set (setCurrentPage p) else mret tt
      | None => mret tt
      end
  | Next =>
      match pagination w with
      | Some pages =>
          if currentPage w =? pages then mret tt
          else set (setCurrentPage (currentPage w + 1))
      | None => mret tt
      end
  end.

(** The page is within the pages of what the filter keeps. *)
Definition in_range (w : state) : Prop :=
  1 ≤ currentPage w ∧
  ∀ filtered,
    filteredRecipes toLowerCase (recipes w) (searchTerm w) = Some filtered →
    currentPage w ≤ Z.max 1 (totalPages filtered).

End View.

(** The read of [loadRecipes] is awaited. *)
Definition loading_recipes (t : task state) : Prop :=
  awaiting t = GET Receitas ∧ also t = [] ∧
  ∀ x w c, ∃ l c',
    advance (resume t x) w c
      = (State l false (searchTerm w) (currentPage w), c', []).

Definition mount {S} (s : S) : sys state S :=
  start loadRecipes (Sys initial [] [] s []).

(** The life of the list view. *)
Definition paged {S} (toLowerCase : string → string) (σ : sys state S) : Prop :=
  (∃ t, pending σ = [t] ∧ loading_recipes t ∧
        loading (world σ) = true ∧ currentPage (world σ) = 1) ∨
  (pending σ = [] ∧ loading (world σ) = false ∧ in_range toLowerCase (world σ)).

End HomeView.

(** ** RecipeDetail: the like button *)

Module Detail.

Record state : Type := State {
  id : string;                          (* useParams *)
  recipe : option obj;
  loading : bool;
  likes : value;
  isLiking : bool;
  liked : bool;
  liked_recipes : option (list value)   (* localStorage, as parsed JSON *)
}.

Definition initial (id : string) (storage : option (list value)) : state :=
  State id None true (VNum 0) false false storage.

Definition setRecipe (r : option obj) (w : state) : state :=
  State (id w) r (loading w) (likes w) (isLiking w) (liked w) (liked_recipes w).
Definition setLoading (b : bool) (w : state) : state :=
  State (id w) (recipe w) b (likes w) (isLiking w) (liked w) (liked_recipes w).
Definition setLikes (v : value) (w : state) : state :=
  State (id w) (recipe w) (loading w) v (isLiking w) (liked w) (liked_recipes w).
Definition setIsLiking (b : bool) (w : state) : state :=
  State (id w) (recipe w) (loading w) (likes w) b (liked w) (liked_recipes w).
Definition setLiked (b : bool) (w : state) : state :=
  State (id w) (recipe w) (loading w) (likes w) (isLiking w) b (liked_recipes w).
Definition setItem (l : list value) (w : state) : state :=
  State (id w) (recipe w) (loading w) (likes w) (isLiking w) (liked w)
    (Some (json_element <$> l)).

(** [JSON.parse(localStorage.getItem('liked_recipes') || '[]')]. *)
Definition likedRecipes (w : state) : list value := default [] (liked_recipes w).

Definition loadRecipe (w0 : state) : io state unit :=
  finally
    (catch
       (set (setLoading true);;
        data ← getRecipeById (VStr (id w0));
        match data with
        | Some d =>
            set (setRecipe (Some d));;
            set (setLikes (get "likes" d));;
            set (λ w, setLiked (includes (likedRecipes w) (parseInt (id w0))) w)
        | None => mret tt
        end)
       (λ _, console_error "Erro ao carregar receita:"))
    (set (setLoading false)).

Definition handleLike (w0 : state) : io state unit :=
  if isLiking w0 || liked w0 then mret tt
  else
    finally
      (catch
         (set (setIsLiking true);;
          newLikes ← likeRecipe (VStr (id w0));
          if strict_ne newLikes VNull then
            set (setLikes newLikes);;
            set (setLiked true);;
            set (λ w, setItem (likedRecipes w ++ [parseInt (id w0)]) w)
          else mret tt)
         (λ _, console_error "Erro ao dar like:"))
      (set (setIsLiking false)).

(** The one action of this view.  The button exists only once the recipe
    is shown, and is disabled while liking or when already liked. *)
Inductive action : Type := ClickLike.

Definition like_button_enabled (w : state) : bool :=
  negb (loading w) && bool_decide (is_Some (recipe w))
  && negb (isLiking w || liked w).

Definition dispatch (a : action) (w : state) : io state unit :=
  match a with
  | ClickLike => if like_button_enabled w then handleLike w else mret tt
  end.

(** Mounting the view runs [loadRecipe]. *)
Definition mount {S} (id : string) (storage : option (list value)) (s : S)
    : sys state S :=
  start (loadRecipe (initial id storage)) (Sys (initial id storage) [] [] s []).

(** *** What a suspended handler of this view is doing *)

(** A PUT that the server acknowledged: one increment of the remote count. *)
Definition acked (qx : request * reply) : bool :=
  match qx with
  | (PUT _ _, Resolved _) => true
  | _ => false
  end.

Definition acks (h : list (request * reply)) : nat := length (List.filter acked h).

(** The read of [loadRecipe] is awaited. *)
Definition loading_recipe (i : string) (t : task state) : Prop :=
  awaiting t = GET (Receita i) ∧ also t = [] ∧
  ∀ x w c, ∃ w' c',
    advance (resume t x) w c = (w', c', []) ∧
    id w' = id w ∧ loading w' = false ∧ isLiking w' = isLiking w ∧
    liked_recipes w' = liked_recipes w ∧
    ((recipe w' = recipe w ∧ liked w' = liked w) ∨
     liked w' = includes (likedRecipes w) (parseInt i)).

(** The PUT of [likeRecipe] is awaited. *)
Definition like_put (i : string) (t : task state) : Prop :=
  (∃ body, awaiting t = PUT (Receita i) body) ∧ also t = [] ∧
  ∀ x w c,
    match x with
    | Rejected => ∃ c', advance (resume t x) w c = (setIsLiking false w, c', [])
    | Resolved _ =>
        ∃ v, advance (resume t x) w c
             = (setIsLiking false
                  (setItem (likedRecipes w ++ [parseInt i])
                     (setLiked true (setLikes v w))), c, [])
    end.

(** The GET of [likeRecipe] is awaited. *)
Definition like_get (i : string) (t : task state) : Prop :=
  awaiting t = GET (Receita i) ∧ also t = [] ∧
  ∀ x w c,
    (∃ c', advance (resume t x) w c = (setIsLiking false w, c', [])) ∨
    (∃ t', advance (resume t x) w c = (w, c, [t']) ∧ like_put i t').

Section Lives.
Context {S : Type}.
Variable i : string.
Variable storage : option (list value).

(** The numbers in the persisted set are those it held at mount, plus
    the parsed id once a like was acknowledged. *)
Definition grown (σ : sys state S) : Prop :=
  ∀ n,
    (includes (default [] storage) (VNum n) = true →
     includes (likedRecipes (world σ)) (VNum n) = true) ∧
    (includes (likedRecipes (world σ)) (VNum n) = true →
     includes (default [] storage) (VNum n) = true ∨
     (acks (history σ) = 1%nat ∧ parseInt i = VNum n)).

(** The life of one view instance. *)
Definition once (σ : sys state S) : Prop :=
  id (world σ) = i ∧ grown σ ∧
  ((∃ t, pending σ = [t] ∧ loading_recipe i t ∧ loading (world σ) = true ∧
         isLiking (world σ) = false ∧ acks (history σ) = 0%nat) ∨
   (pending σ = [] ∧ loading (world σ) = false ∧
    isLiking (world σ) = false ∧ acks (history σ) = 0%nat) ∨
   (∃ t, pending σ = [t] ∧ (like_get i t ∨ like_put i t) ∧
         loading (world σ) = false ∧
         isLiking (world σ) = true ∧ acks (history σ) = 0%nat) ∨
   (pending σ = [] ∧ loading (world σ) = false ∧
    isLiking (world σ) = false ∧ liked (world σ) = true ∧
    acks (history σ) = 1%nat ∧
    includes (likedRecipes (world σ)) (json_element (parseInt i)) = true)).

(** The life of a view mounted when the id is already in the persisted
    set: the read of [loadRecipe] is the only call ever made. *)
Definition settled (σ : sys state S) : Prop :=
  id (world σ) = i ∧
  includes (likedRecipes (world σ)) (parseInt i) = true ∧
  isLiking (world σ) = false ∧
  ((∃ t, pending σ = [t] ∧ loading_recipe i t ∧ loading (world σ) = true ∧
         recipe (world σ) = None ∧ history σ = []) ∨
   (pending σ = [] ∧ loading (world σ) = false ∧
    (recipe (world σ) = None ∨ liked (world σ) = true) ∧
    ∃ x, history σ = [(GET (Receita i), x)])).

End Lives.

End Detail.

(** ** One client, two views of a recipe

    Two RecipeDetail views open on one client, as in two tabs of one
    browser.  Each view has its own component state; [localStorage]
    belongs to the client, so what one view writes there is what the
    other finds. *)

Module Client.

Definition state : Type := Detail.state * Detail.state.

(** The view [w] with the storage as the view [writer] left it. *)
Definition sharing (writer w : Detail.state) : Detail.state :=
  Detail.State (Detail.id w) (Detail.recipe w) (Detail.loading w)
    (Detail.likes w) (Detail.isLiking w) (Detail.liked w)
    (Detail.liked_recipes writer).

Definition in_first {A} : io Detail.state A → io state A :=
  zoom fst (λ a v, (a, sharing a v.2)).

Definition in_second {A} : io Detail.state A → io state A :=
  zoom snd (λ b v, (sharing b v.1, b)).

Inductive action : Type :=
| InFirst (a : Detail.action)
| InSecond (a : Detail.action).

Definition dispatch (a : action) (w : state) : io state unit :=
  match a with
  | InFirst a => in_first (Detail.dispatch a w.1)
  | InSecond a => in_second (Detail.dispatch a w.2)
  end.

(** Both views are opened on the recipe [id]. *)
Definition mount {S} (id : string) (storage : option (list value)) (s : S)
    : sys state S :=
  start (in_second (Detail.loadRecipe (Detail.initial id storage)))
    (start (in_first (Detail.loadRecipe (Detail.initial id storage)))
       (Sys (Detail.initial id storage, Detail.initial id storage) [] [] s [])).

End Client.

(** ** AdminDashboard: create, update, delete *)

Module Admin.

Record state : Type := State {
  recipes : list obj;
  categories : list obj;
  loading : bool;
  showModal : bool;
  showDeleteModal : bool;
  editingRecipe : option obj;
  deletingRecipe : option obj;
  saving : bool;
  formData : obj
}.

Definition emptyForm : obj :=
  list_to_map
    [ ("titulo", VStr ""); ("imagem_url", VStr ""); ("tempo_preparo", VStr "");
      ("ingredientes", VStr ""); ("instrucoes", VStr ""); ("categoria_id", VStr "") ].

Definition initial : state :=
  State [] [] true false false None None false emptyForm.

Definition setRecipes (f : list obj → list obj) (w : state) : state :=
  State (f (recipes w)) (categories w) (loading w) (showModal w) (showDeleteModal w)
    (editingRecipe w) (deletingRecipe w) (saving w) (formData w).
Definition setCategories (l : list obj) (w : state) : state :=
  State (recipes w) l (loading w) (showModal w) (showDeleteModal w)
    (editingRecipe w) (deletingRecipe w) (saving w) (formData w).
Definition setLoading (b : bool) (w : state) : state :=
  State (recipes w) (categories w) b (showModal w) (showDeleteModal w)
    (editingRecipe w) (deletingRecipe w) (saving w) (formData w).
Definition setShowModal (b : bool) (w : state) : state :=
  State (recipes w) (categories w) (loading w) b (showDeleteModal w)
    (editingRecipe w) (deletingRecipe w) (saving w) (formData w).
Definition setShowDeleteModal (b : bool) (w : state) : state :=
  State (recipes w) (categories w) (loading w) (showModal w) b
    (editingRecipe w) (deletingRecipe w) (saving w) (formData w).
Definition setEditingRecipe (r : option obj) (w : state) : state :=
  State (recipes w) (categories w) (loading w) (showModal w) (showDeleteModal w)
    r (deletingRecipe w) (saving w) (formData w).
Definition setDeletingRecipe (r : option obj) (w : state) : state :=
  State (recipes w) (categories w) (loading w) (showModal w) (showDeleteModal w)
    (editingRecipe w) r (saving w) (formData w).
Definition setSaving (b : bool) (w : state) : state :=
  State (recipes w) (categories w) (loading w) (showModal w) (showDeleteModal w)
    (editingRecipe w) (deletingRecipe w) b (formData w).
Definition setFormData (f : obj → obj) (w : state) : state :=
  State (recipes w) (categories w) (loading w) (showModal w) (showDeleteModal w)
    (editingRecipe w) (deletingRecipe w) (saving w) (f (formData w)).

(** Both reads are started by [Promise.all] before either is awaited. *)
Definition loadData : io state unit :=
  finally
    (catch
       (set (setLoading true);;
        '(recipesData, categoriesData) ← promise_all getRecipes getCategories;
        set (setRecipes (λ _, recipesData));;
        set (setCategories categoriesData))
       (λ _, console_error "Erro ao carregar dados:"))
    (set (setLoading false)).

Definition handleChange (name : string) (v : string) : io state unit :=
  set (setFormData (λ prev, <[name := VStr v]> prev)).

Definition openAddModal : io state unit :=
  set (setEditingRecipe None);;
  set (setFormData (λ _, emptyForm));;
  set (setShowModal true).

Definition openEditModal (recipe : obj) : io state unit :=
  set (setEditingRecipe (Some recipe));;
  set (setFormData (λ _,
         list_to_map
           [ ("titulo", get "titulo" recipe);
             ("imagem_url", get "imagem_url" recipe);
             ("tempo_preparo", get "tempo_preparo" recipe);
             ("ingredientes", get "ingredientes" recipe);
             ("instrucoes", get "instrucoes" recipe);
             ("categoria_id", or (get "categoria" recipe) (VStr "")) ]));;
  set (setShowModal true).

Definition openDeleteModal (recipe : obj) : io state unit :=
  set (setDeletingRecipe (Some recipe));;
  set (setShowDeleteModal true).

Definition closeModal : io state unit :=
  set (setShowModal false);;
  set (setEditingRecipe None);;
  set (setFormData (λ _, emptyForm)).

Definition closeDeleteModal : io state unit :=
  set (setShowDeleteModal false);;
  set (setDeletingRecipe None).

Definition missing (v : value) : bool := negb (truthy v).

Definition handleSubmit (w0 : state) : io state unit :=
  if saving w0 then mret tt
  else if missing (get "titulo" (formData w0))
          || missing (get "imagem_url" (formData w0))
          || missing (get "categoria_id" (formData w0))
  then console_error "Campos obrigatórios em falta"
  else
    set (setSaving true);;
    finally
      (catch
         (match editingRecipe w0 with
          | Some editing =>
              updatedRecipe ← updateRecipe (get "id" editing) (formData w0);
              set (setRecipes (λ prev,
                     (λ r, if strict_eq (get "id" r) (get "id" editing)
                           then updatedRecipe else r) <$> prev))
          | None =>
              newRecipe ← createRecipe (formData w0);
              set (setRecipes (λ prev, (prev ++ [newRecipe])))
          end;;
          closeModal)
         (λ _, console_error "Erro ao guardar receita:";; loadData))
      (set (setSaving false)).

Definition handleDelete (w0 : state) : io state unit :=
  match deletingRecipe w0 with
  | None => mret tt
  | Some deleting =>
      set (setSaving true);;
      finally
        (catch
           (deleteRecipe (get "id" deleting);;
            set (setRecipes (λ prev,
                   List.filter (λ r, strict_ne (get "id" r) (get "id" deleting)) prev));;
            closeDeleteModal)
           (λ _, console_error "Erro ao eliminar receita:";; loadData))
        (set (setSaving false))
  end.

(** What the user can do.  While [loading] only the spinner is rendered;
    each modal exists only while it is shown; the confirm button of the
    delete modal is [disabled] while [saving].  A submit reaches
    [handleSubmit] whenever the form is on screen. *)
Inductive action : Type :=
| ClickAdd
| ClickEdit (recipe : obj)
| ClickDelete (recipe : obj)
| Change (name : string) (v : string)
| CloseModal
| CloseDeleteModal
| Submit
| ConfirmDelete.

Definition dispatch (a : action) (w : state) : io state unit :=
  if loading w then mret tt
  else
    match a with
    | ClickAdd => openAddModal
    | ClickEdit recipe =>
        if bool_decide (recipe ∈ recipes w) then openEditModal recipe else mret tt
    | ClickDelete recipe =>
        if bool_decide (recipe ∈ recipes w) then openDeleteModal recipe else mret tt
    | Change name v => if showModal w then handleChange name v else mret tt
    | CloseModal => if showModal w then closeModal else mret tt
    | CloseDeleteModal => if showDeleteModal w then closeDeleteModal else mret tt
    | Submit => if showModal w then handleSubmit w else mret tt
    | ConfirmDelete =>
        if showDeleteModal w && negb (saving w) then handleDelete w else mret tt
    end.

(** Mounting the view runs [loadData]. *)
Definition mount {S} (s : S) : sys state S :=
  start loadData (Sys initial [] [] s []).

(** The "Total de Likes" card:
    [recipes.reduce((acc, r) => acc + r.likes, 0)]. *)
Definition totalLikes (recipes : list obj) : value :=
  foldl (λ acc r, add acc (get "likes" r)) (VNum 0) recipes.

(** The like count a sheet row holds, 0 when it holds none. *)
Definition stored_likes (row : obj) : Z :=
  match get "likes" row with
  | VNum n => n
  | _ => 0
  end.

(** *** What a suspended handler of this view is doing *)

Definition is_mutation (q : request) : bool :=
  match q with
  | GET _ => false
  | _ => true
  end.

(** A read still in flight although the load that made it has ended
    (the other read was rejected first): its answer changes nothing in
    the view and makes no further call. *)
Definition left_over (t : task state) : Prop :=
  is_mutation (awaiting t) = false ∧ also t = [] ∧
  ∀ x w c, ∃ c', advance (resume t x) w c = (w, c', []).

(** How a load ends: [loading] is cleared; [fin] tells whether the load
    runs inside a submit or delete, which clears [saving] last. *)
Definition load_ended (fin : bool) (w w' : state) : Prop :=
  loading w' = false ∧ saving w' = (if fin then false else saving w).

(** One read of [loadData] was answered, the other is awaited: the load
    ends with its answer. *)
Definition reading_last (fin : bool) (t : task state) : Prop :=
  is_mutation (awaiting t) = false ∧ also t = [] ∧
  ∀ x w c, ∃ w' c',
    advance (resume t x) w c = (w', c', []) ∧ load_ended fin w w'.

(** After the first answer to [loadData]: the load has ended and the
    other read is left over, or the other read is awaited. *)
Definition first_answer (fin : bool) (k : reply → io state unit) : Prop :=
  ∀ x w c,
    (∃ w' c' t', advance (k x) w c = (w', c', [t']) ∧
                 load_ended fin w w' ∧ left_over t') ∨
    (∃ c' t', advance (k x) w c = (w, c', [t']) ∧ reading_last fin t').

(** Both reads of [loadData] are in flight. *)
Definition reading_both (fin : bool) (t : task state) : Prop :=
  awaiting t = GET Receitas ∧ first_answer fin (resume t) ∧
  ∃ k, also t = [(GET Categorias, k)] ∧ first_answer fin k.

(** The POST, PUT or DELETE of a submit or delete is awaited. *)
Definition mutating (t : task state) : Prop :=
  is_mutation (awaiting t) = true ∧ also t = [] ∧
  ∀ x w c,
    (∃ w' c', advance (resume t x) w c = (w', c', []) ∧
              saving w' = false ∧ loading w' = loading w) ∨
    (∃ c' t', advance (resume t x) w c = (setLoading true w, c', [t']) ∧
              reading_both true t').

(** What the one function that can still change the view is doing, and
    the flag that is up while it does. *)
Definition busy (w : state) (t : task state) : Prop :=
  (mutating t ∧ saving w = true ∧ loading w = false) ∨
  (∃ fin, (reading_both fin t ∨ reading_last fin t) ∧
          loading w = true ∧ saving w = fin).

(** What a continuation [k] of the function the flags stand for can do:
    end the function, leaving at most left-over reads, or suspend it
    again. *)
Definition goes_on (w : state) (k : reply → io state unit) : Prop :=
  ∀ x c,
    (∃ w' c' ts, advance (k x) w c = (w', c', ts) ∧ Forall left_over ts ∧
                 saving w' = false ∧ loading w' = false) ∨
    (∃ w' c' t', advance (k x) w c = (w', c', [t']) ∧ busy w' t').

(** Apart from left-over reads, at most one function is suspended, and a
    flag is up while it is. *)
Definition serialized {S} (σ : sys state S) : Prop :=
  (Forall left_over (pending σ) ∧
   saving (world σ) = false ∧ loading (world σ) = false) ∨
  ∃ l1 t l2, pending σ = l1 ++ t :: l2 ∧
    Forall left_over l1 ∧ Forall left_over l2 ∧ busy (world σ) t.

(** The request a submit makes: a PUT of the translated form when a
    recipe is being edited, a POST of it with likes 0 otherwise. *)
Definition submit_request (w : state) : request :=
  match editingRecipe w with
  | Some editing =>
      PUT (Receita (to_string (get "id" editing))) (denormalizeRecipe (formData w))
  | None => POST Receitas (<["likes" := VNum 0]> (denormalizeRecipe (formData w)))
  end.

Definition fields_missing (w : state) : bool :=
  missing (get "titulo" (formData w))
  || missing (get "imagem_url" (formData w))
  || missing (get "categoria_id" (formData w)).

End Admin.

(** ** A reference model of the remote sheet

    The sheet is not part of this repository.  This model fixes what the
    adapter relies on: rows are addressed by the identifier in the URL, a
    POST appends a row under a new identifier, and a PUT overwrites the
    columns named in the body and keeps the others (the like path sends
    the likes column alone and expects the rest of the row to survive). *)

Module Store.

Record sheet : Type := Sheet {
  rows : gmap string obj;
  next_id : Z;
  cats : list obj
}.

(** The body as it arrives after [JSON.stringify]: fields holding
    [undefined] are dropped, [NaN] becomes [null]. *)
Definition json (o : obj) : obj :=
  json_element <$> filter (λ kv : string * value, kv.2 ≠ VUndef) o.

Definition one (r : obj) : data := Data (Some r) None None.
Definition nothing : data := Data None None None.

Definition serve (s : sheet) (q : request) : sheet * reply :=
  match q with
  | GET Categorias => (s, Resolved (Data None None (Some (cats s))))
  | GET Receitas =>
      (s, Resolved (Data None (Some (snd <$> map_to_list (rows s))) None))
  | GET (Receita i) =>
      (s, Resolved (match rows s !! i with Some r => one r | None => nothing end))
  | POST Receitas body =>
      let i := pretty (next_id s) in
      match rows s !! i with
      | Some _ => (s, Rejected)
      | None =>
          let r := <["id" := VNum (next_id s)]> (json body) in
          (Sheet (<[i := r]> (rows s)) (next_id s + 1) (cats s), Resolved (one r))
      end
  | PUT (Receita i) body =>
      match rows s !! i with
      | Some r =>
          let r' := json body ∪ r in
          (Sheet (<[i := r']> (rows s)) (next_id s) (cats s), Resolved (one r'))
      | None => (s, Rejected)
      end
  | DELETE (Receita i) =>
      match rows s !! i with
      | Some _ => (Sheet (delete i (rows s)) (next_id s) (cats s), Resolved nothing)
      | None => (s, Rejected)
      end
  | _ => (s, Rejected)
  end.

(** The same sheet behind a connection that loses the answers to the
    first [n] updates: the sheet applies the PUT, the client sees the
    call rejected. *)
Definition lossy (s : sheet * nat) (q : request) : (sheet * nat) * reply :=
  let '(s', x) := serve s.1 q in
  match q, s.2 with
  | PUT _ _, S n => ((s', n), Rejected)
  | _, _ => ((s', s.2), x)
  end.

End Store.

(** ** Fixtures *)

Module Fixtures.

Definition receita_of (i : Z) (titulo categoria : string) (likes : Z) : obj :=
  list_to_map
    [ ("id", VNum i); ("titulo", VStr titulo);
      ("imagem", VStr "https://img.example/1.jpg"); ("tempo", VStr "45 min");
      ("ingredientes", VStr "agua"); ("preparacao", VStr "ferver");
      ("likes", VNum likes); ("categoria", VStr categoria) ].

Definition caldo_verde : obj := receita_of 2 "Caldo Verde" "Sopas" 5.
Definition sem_categoria : obj := receita_of 3 "Arroz Doce" "" 1.

Definition form_of (titulo imagem categoria : string) : obj :=
  list_to_map
    [ ("titulo", VStr titulo); ("imagem_url", VStr imagem);
      ("tempo_preparo", VStr "1 h"); ("ingredientes", VStr "arroz");
      ("instrucoes", VStr "cozer"); ("categoria_id", VStr categoria) ].

Definition one_row : Store.sheet :=
  Store.Sheet {[ "2" := caldo_verde ]} 3 [].

Definition seven : list obj :=
  (λ i, receita_of i ("R" +:+ pretty i) "Sopas" 0) <$> [1; 2; 3; 4; 5; 6; 7].

Definition three : list obj :=
  normalizeRecipe <$>
    [receita_of 1 "Bacalhau" "Peixe" 3; caldo_verde; receita_of 3 "Arroz Doce" "Doces" 1].

Definition confirming : Admin.state :=
  Admin.State three [] false false true None (Some (normalizeRecipe caldo_verde)) false Admin.emptyForm.

Definition saving_now : sys Admin.state Store.sheet :=
  Sys (Admin.setSaving true confirming) [] [] one_row [].

Definition empty_title : sys Admin.state Store.sheet :=
  Sys (Admin.State three [] false true false None None false Admin.emptyForm) [] [] one_row [].

Definition liked_view : sys Detail.state Store.sheet :=
  Sys (Detail.State "2" (Some (normalizeRecipe caldo_verde)) false (VNum 6)
         false true (Some [VNum 2]))
    [] [] one_row [].

Definition categoria_of (i : Z) (nome : string) : obj :=
  list_to_map [("id", VNum i); ("nome", VStr nome)].

Definition sopas : obj := categoria_of 1 "Sopas".
Definition doces : obj := categoria_of 2 "Doces".
Definition doces_again : obj := categoria_of 2 "Sobremesas".

Definition with_categories : Store.sheet :=
  Store.Sheet {[ "2" := caldo_verde ]} 3 [sopas; doces; doces_again].

Definition seven_rows : Store.sheet :=
  Store.Sheet (list_to_map ((λ r, (to_string (get "id" r), r)) <$> seven)) 8 [].

Definition titles (l : list obj) : list value := get "titulo" <$> l.

(** Two views of recipe 2 on one client, both loaded before any like;
    then the first view likes the recipe and its like is acknowledged. *)
Definition first_view_liked : sys Client.state Store.sheet :=
  steps Store.serve Client.dispatch (Client.mount "2" None one_row)
    [Deliver 0; Deliver 0;
     User (Client.InFirst Detail.ClickLike); Deliver 0; Deliver 0].

(** After that, the like button of the second view is clicked. *)
Definition second_view_clicked : sys Client.state Store.sheet :=
  step Store.serve Client.dispatch first_view_liked
    (User (Client.InSecond Detail.ClickLike)).

Definition second_view_liked : sys Client.state Store.sheet :=
  steps Store.serve Client.dispatch second_view_clicked [Deliver 0; Deliver 0].

(** One view of recipe 2 whose first like is applied by the sheet while
    its answer is lost, and which is then clicked again. *)
Definition like_retried : sys Detail.state (Store.sheet * nat) :=
  steps Store.lossy Detail.dispatch (Detail.mount "2" None (one_row, 1%nat))
    [Deliver 0; User Detail.ClickLike; Deliver 0; Deliver 0;
     User Detail.ClickLike; Deliver 0; Deliver 0].

(** A view showing recipe 2, at rest and not liked yet. *)
Definition loaded_view : sys Detail.state Store.sheet :=
  Sys (Detail.State "2" (Some (normalizeRecipe caldo_verde)) false (VNum 5)
         false false None)
    [] [] one_row [].

(** The same view under an identifier the sheet does not have. *)
Definition unknown_view : sys Detail.state Store.sheet :=
  Sys (Detail.State "9" (Some (normalizeRecipe caldo_verde)) false (VNum 5)
         false false None)
    [] [] one_row [].

(** The dashboard at rest, showing [three]. *)
Definition at_rest : Admin.state :=
  Admin.State three [] false false false None None false Admin.emptyForm.

(** The edit form open on recipe 2, and the add form filled in. *)
Definition editing_caldo : Admin.state :=
  Admin.State three [] false true false (Some (normalizeRecipe caldo_verde)) None
    false (form_of "Caldo" "c.jpg" "Sopas").

Definition adding_bolo : Admin.state :=
  Admin.State three [] false true false None None false
    (form_of "Bolo" "b.jpg" "Doces").

End Fixtures.

(* ================================================================= *)
(** * Properties *)

(** ** The two record shapes *)

Module ShapeFacts.
Import Fixtures.

Lemma get_insert_eq f v (o : obj) : get f (<[f := v]> o) = v.
Proof. unfold get. by rewrite lookup_insert_eq. Qed.

Lemma get_insert_ne f g v (o : obj) : g ≠ f → get f (<[g := v]> o) = get f o.
Proof. intros. unfold get. by rewrite lookup_insert_ne. Qed.

Lemma get_empty f : get f (∅ : obj) = VUndef.
Proof. unfold get. by rewrite lookup_empty. Qed.

Lemma get_some f (o : obj) v : o !! f = Some v → get f o = v.
Proof. unfold get. by intros ->. Qed.

Lemma get_none f (o : obj) : o !! f = None → get f o = VUndef.
Proof. unfold get. by intros ->. Qed.

Ltac in_list := solve [repeat constructor].

Ltac read_fields :=
  unfold normalizeRecipe, denormalizeRecipe;
  cbn [list_to_map foldr uncurry fst snd];
  repeat first [ rewrite get_insert_eq
               | rewrite get_insert_ne by done
               | rewrite get_empty
               | rewrite lookup_insert_eq
               | rewrite lookup_insert_ne by done
               | rewrite lookup_empty ].

Lemma truthy_or a b : truthy a = true → or a b = a.
Proof. unfold or. by intros ->. Qed.

Lemma falsy_or a b : truthy a = false → or a b = b.
Proof. unfold or. by intros ->. Qed.

Lemma or_text s : or (VStr s) (VStr "") = VStr s.
Proof.
  unfold or; simpl. destruct (String.eqb_spec s ""); simpl; congruence.
Qed.

Lemma or_count n : or (VNum n) (VNum 0) = VNum n.
Proof.
  unfold or; simpl. destruct (Z.eqb_spec n 0); simpl; congruence.
Qed.

Lemma or_defined a b : b ≠ VUndef → b ≠ VNull → or a b ≠ VUndef ∧ or a b ≠ VNull.
Proof. intros ??. unfold or. destruct a as [| |[]| | |]; simpl; try done; by case_match. Qed.

Lemma normalize_dom (r : obj) : dom (normalizeRecipe r) = list_to_set ui_fields.
Proof.
  unfold normalizeRecipe, ui_fields.
  cbn [list_to_map foldr uncurry fst snd list_to_set].
  rewrite !dom_insert_L, dom_empty_L. done.
Qed.

Lemma denormalize_dom (form : obj) :
  dom (denormalizeRecipe form) = list_to_set text_columns.
Proof.
  unfold denormalizeRecipe, text_columns.
  cbn [list_to_map foldr uncurry fst snd list_to_set].
  rewrite !dom_insert_L, dom_empty_L. done.
Qed.

(** C1, as amended.  For a sheet row whose six text columns are present,
    translating to the UI shape and back gives the same titulo, imagem,
    tempo, ingredientes, preparacao and categoria; the record that comes
    back has exactly those six columns, so it carries neither likes nor
    id (the like count survives only in the UI shape, where a numeric
    count is kept as it is).  In the UI shape categoria_id equals the
    row's categoria, and equals the UI categoria whenever that text is not
    empty; an empty categoria is shown as "Sem categoria". *)
Theorem roundtrip_text_columns (r : obj) :
  (∀ f, f ∈ text_columns → ∃ s, r !! f = Some (VStr s)) →
  let ui := normalizeRecipe r in
  let back := denormalizeRecipe ui in
  (∀ f, f ∈ text_columns → back !! f = r !! f) ∧
  dom back = list_to_set text_columns ∧
  back !! "likes" = None ∧
  back !! "id" = None ∧
  (∀ n, r !! "likes" = Some (VNum n) → get "likes" ui = VNum n) ∧
  get "categoria_id" ui = get "categoria" r ∧
  (get "categoria" r ≠ VStr "" → get "categoria" ui = get "categoria_id" ui) ∧
  (get "categoria" r = VStr "" → get "categoria" ui = VStr "Sem categoria").
Proof.
  intros Htext ui back. subst ui back.
  assert (Hcat : ∃ s, r !! "categoria" = Some (VStr s))
    by (apply Htext; in_list).
  destruct Hcat as [c Hc]. apply get_some in Hc as Hc'.
  split_and!.
  - intros f Hf. destruct (Htext f Hf) as [s Hs].
    unfold text_columns in Hf.
    repeat (apply elem_of_cons in Hf as [->|Hf]);
      [..|by apply elem_of_nil in Hf];
      read_fields; rewrite (get_some _ _ _ Hs), Hs; by rewrite or_text.
  - apply denormalize_dom.
  - by read_fields.
  - by read_fields.
  - intros n Hn. read_fields. rewrite (get_some _ _ _ Hn). apply or_count.
  - read_fields. rewrite Hc'. apply or_text.
  - read_fields. rewrite Hc'. intros Hne.
    rewrite or_text. apply truthy_or. simpl.
    destruct (String.eqb_spec c ""); [congruence|done].
  - read_fields. rewrite Hc'. by intros [= ->].
Qed.

Lemma roundtrip_text_columns_witness :
  denormalizeRecipe (normalizeRecipe caldo_verde) !! "titulo"
    = Some (VStr "Caldo Verde") ∧
  denormalizeRecipe (normalizeRecipe caldo_verde) !! "likes" = None.
Proof.
  assert (H : ∀ f, f ∈ text_columns → ∃ s, caldo_verde !! f = Some (VStr s)).
  { intros f Hf. unfold text_columns in Hf.
    repeat (apply elem_of_cons in Hf as [->|Hf]);
      [..|by apply elem_of_nil in Hf]; eexists; vm_compute; reflexivity. }
  destruct (roundtrip_text_columns caldo_verde H) as (Hsame & _ & Hlikes & _).
  split; [|exact Hlikes].
  rewrite (Hsame "titulo") by in_list.
  vm_compute; reflexivity.
Defined.

(** C1 as stated fails twice: a row with every column present loses its
    like count in the round trip, and a row whose categoria is the empty
    text has categoria_id different from categoria in the UI shape. *)
Lemma roundtrip_loses_likes :
  (∀ f, f ∈ "likes" :: "id" :: text_columns → is_Some (caldo_verde !! f)) ∧
  caldo_verde !! "likes" = Some (VNum 5) ∧
  denormalizeRecipe (normalizeRecipe caldo_verde) !! "likes" = None ∧
  (∀ f, f ∈ "likes" :: "id" :: text_columns → is_Some (sem_categoria !! f)) ∧
  get "categoria" (normalizeRecipe sem_categoria) = VStr "Sem categoria" ∧
  get "categoria_id" (normalizeRecipe sem_categoria) = VStr "".
Proof.
  repeat split; try (vm_compute; reflexivity).
  - intros f Hf. unfold text_columns in Hf.
    repeat (apply elem_of_cons in Hf as [->|Hf]);
      [..|by apply elem_of_nil in Hf]; eexists; vm_compute; reflexivity.
  - intros f Hf. unfold text_columns in Hf.
    repeat (apply elem_of_cons in Hf as [->|Hf]);
      [..|by apply elem_of_nil in Hf]; eexists; vm_compute; reflexivity.
Qed.

(** C2, as amended.  A missing or undefined titulo, imagem, tempo,
    ingredientes or preparacao becomes the empty text in the matching UI
    field and a missing likes becomes 0; a missing categoria becomes
    "Sem categoria" in the UI categoria and the empty text in
    categoria_id.  The UI record always has its nine fields, and none of
    them other than id is undefined or null; id is copied as it is. *)
Theorem normalize_defaults (r : obj) :
  let ui := normalizeRecipe r in
  (∀ u f, (u, f) ∈ ui_source → get f r = VUndef → get u ui = VStr "") ∧
  (get "likes" r = VUndef → get "likes" ui = VNum 0) ∧
  (get "categoria" r = VUndef →
     get "categoria" ui = VStr "Sem categoria" ∧ get "categoria_id" ui = VStr "") ∧
  dom ui = list_to_set ui_fields ∧
  (∀ u, u ∈ ui_fields → u ≠ "id" → get u ui ≠ VUndef ∧ get u ui ≠ VNull) ∧
  get "id" ui = get "id" r.
Proof.
  intros ui; subst ui. split_and!.
  - intros u f Hin Hf. unfold ui_source in Hin.
    repeat (apply elem_of_cons in Hin as [[= -> ->]|Hin]);
      [..|by apply elem_of_nil in Hin];
      read_fields; by rewrite Hf.
  - intros Hf. read_fields. by rewrite Hf.
  - intros Hf. split; read_fields; by rewrite Hf.
  - apply normalize_dom.
  - intros u Hu Hid. unfold ui_fields in Hu.
    repeat (apply elem_of_cons in Hu as [->|Hu]); [..|by apply elem_of_nil in Hu];
      try done; read_fields; by apply or_defined.
  - by read_fields.
Qed.

Lemma normalize_defaults_witness :
  get "titulo" (normalizeRecipe ∅) = VStr "" ∧
  get "likes" (normalizeRecipe ∅) = VNum 0 ∧
  get "categoria_id" (normalizeRecipe ∅) = VStr "".
Proof.
  destruct (normalize_defaults ∅) as (Htext & Hlikes & Hcat & _).
  split; [|split].
  - apply (Htext "titulo" "titulo"); [in_list|reflexivity].
  - apply Hlikes. reflexivity.
  - apply Hcat. reflexivity.
Defined.

(** C2 as stated fails on the empty row: its categoria is missing, yet the
    UI categoria is "Sem categoria" and not the empty text, and its UI id
    is undefined. *)
Lemma normalize_missing_categoria :
  get "categoria" (∅ : obj) = VUndef ∧
  get "categoria" (normalizeRecipe ∅) = VStr "Sem categoria" ∧
  get "categoria" (normalizeRecipe ∅) ≠ VStr "" ∧
  get "id" (normalizeRecipe ∅) = VUndef.
Proof. repeat split; try (vm_compute; reflexivity). vm_compute. discriminate. Qed.

End ShapeFacts.

(** ** The adapter's calls *)

Module CallFacts.
Import Fixtures ShapeFacts.

Section AnyServer.
Context {W S : Type}.
Variable serve : S → request → S * reply.

(** C3.  [likeRecipe] first GETs the record.  When the answer carries a
    record it computes the fetched likes plus one, PUTs a body whose
    only field is that new count, and returns the new count once the
    PUT resolves; when the answer carries no record it returns null and
    the GET is the only request made. *)
Theorem likeRecipe_read_modify_write (id : value) (s s1 : S) (w : W) (d : data) :
  let url := Receita (to_string id) in
  serve s (GET url) = (s1, Resolved d) →
  (receita d = None →
     exec serve (likeRecipe id) s w
       = Run (Returned VNull) s1 w [] [(GET url, Resolved d)]) ∧
  (∀ r, receita d = Some r →
     let newLikes := add (or (get "likes" r) (VNum 0)) (VNum 1) in
     let update := PUT url {["likes" := newLikes]} in
     sent (exec serve (likeRecipe id) s w)
       = [(GET url, Resolved d); (update, (serve s1 update).2)] ∧
     dom ({["likes" := newLikes]} : obj) = {["likes"]} ∧
     (∀ d2, (serve s1 update).2 = Resolved d2 →
        out (exec serve (likeRecipe id) s w) = Returned newLikes) ∧
     (∀ n, get "likes" r = VNum n → newLikes = VNum (n + 1)) ∧
     (get "likes" r = VUndef → newLikes = VNum 1)).
Proof.
  intros url Hget. split.
  - intros Hnone. unfold exec, likeRecipe. simpl. fold url. rewrite Hget.
    simpl. rewrite Hnone. reflexivity.
  - intros r Hsome newLikes update.
    assert (Hrun : exec serve (likeRecipe id) s w
              = match (serve s1 update).2 with
                | Rejected =>
                    Run (Thrown AxiosError) (serve s1 update).1 w
                      ["Erro ao dar like:"]
                      [(GET url, Resolved d); (update, Rejected)]
                | Resolved d2 =>
                    Run (Returned newLikes) (serve s1 update).1 w []
                      [(GET url, Resolved d); (update, Resolved d2)]
                end).
    { unfold exec, likeRecipe. simpl. fold url. rewrite Hget. simpl.
      rewrite Hsome. simpl. fold newLikes update.
      destruct (serve s1 update) as [s2 [|d2]]; reflexivity. }
    split_and!.
    + rewrite Hrun. by destruct (serve s1 update).2.
    + apply dom_singleton_L.
    + intros d2 Hd2. rewrite Hrun, Hd2. reflexivity.
    + intros n Hn. subst newLikes. rewrite Hn, or_count. reflexivity.
    + intros Hn. subst newLikes. rewrite Hn. reflexivity.
Qed.

(** C4.  Whatever the submitted form holds, [createRecipe] makes one
    call, a POST of a record in the storage shape: it has exactly the
    columns titulo, imagem, tempo, ingredientes, preparacao, categoria
    and likes; likes is 0, also when the form holds a like count, and
    the six text columns are the form's titulo, imagem_url,
    tempo_preparo, ingredientes, instrucoes and categoria_id.  When the
    server answers with a record, the result is that record in the UI
    shape: its nine fields are the record's id, its titulo, imagem,
    tempo, ingredientes and preparacao under their UI names (the empty
    text when missing), its likes (0 when missing) and its categoria,
    given both as categoria ("Sem categoria" when missing) and as
    categoria_id. *)
Theorem createRecipe_zero_likes (form : obj) (s : S) (w : W) :
  let body := <["likes" := VNum 0]> (denormalizeRecipe form) in
  let answer := (serve s (POST Receitas body)).2 in
  sent (exec serve (createRecipe form) s w) = [(POST Receitas body, answer)] ∧
  dom body = list_to_set ("likes" :: text_columns) ∧
  body !! "likes" = Some (VNum 0) ∧
  body !! "titulo" = Some (get "titulo" form) ∧
  body !! "imagem" = Some (get "imagem_url" form) ∧
  body !! "tempo" = Some (get "tempo_preparo" form) ∧
  body !! "ingredientes" = Some (get "ingredientes" form) ∧
  body !! "preparacao" = Some (get "instrucoes" form) ∧
  body !! "categoria" = Some (get "categoria_id" form) ∧
  (∀ f, f ≠ "likes" → body !! f = denormalizeRecipe form !! f) ∧
  (∀ v, <["likes" := VNum 0]> (denormalizeRecipe (<["likes" := v]> form)) = body) ∧
  (∀ d r, answer = Resolved d → receita d = Some r →
     ∃ ui,
       out (exec serve (createRecipe form) s w) = Returned ui ∧
       ui = normalizeRecipe r ∧
       dom ui = list_to_set ui_fields ∧
       ui !! "id" = Some (get "id" r) ∧
       ui !! "titulo" = Some (or (get "titulo" r) (VStr "")) ∧
       ui !! "imagem_url" = Some (or (get "imagem" r) (VStr "")) ∧
       ui !! "tempo_preparo" = Some (or (get "tempo" r) (VStr "")) ∧
       ui !! "ingredientes" = Some (or (get "ingredientes" r) (VStr "")) ∧
       ui !! "instrucoes" = Some (or (get "preparacao" r) (VStr "")) ∧
       ui !! "likes" = Some (or (get "likes" r) (VNum 0)) ∧
       ui !! "categoria" = Some (or (get "categoria" r) (VStr "Sem categoria")) ∧
       ui !! "categoria_id" = Some (or (get "categoria" r) (VStr ""))).
Proof.
  intros body answer.
  assert (Hsent : sent (exec serve (createRecipe form) s w)
                  = [(POST Receitas body, answer)]).
  { subst answer. unfold exec, createRecipe. simpl. fold body.
    destruct (serve s (POST Receitas body)) as [s1 [|d]]; simpl; [done|].
    unfold normalize_response. by destruct (receita d). }
  assert (Hout : ∀ d r, answer = Resolved d → receita d = Some r →
            out (exec serve (createRecipe form) s w) = Returned (normalizeRecipe r)).
  { subst answer. unfold exec, createRecipe. simpl. fold body.
    destruct (serve s (POST Receitas body)) as [s1 [|d]]; simpl; [done|].
    intros d' r [= <-] Hr. unfold normalize_response. by rewrite Hr. }
  split; [exact Hsent|]. subst body. split_and!.
  - rewrite dom_insert_L, denormalize_dom. done.
  - by apply lookup_insert_eq.
  - by read_fields.
  - by read_fields.
  - by read_fields.
  - by read_fields.
  - by read_fields.
  - by read_fields.
  - intros f Hf. by apply lookup_insert_ne.
  - intros v. f_equal. unfold denormalizeRecipe.
    by rewrite !get_insert_ne by done.
  - intros d r Hd Hr. exists (normalizeRecipe r).
    split; [by eapply Hout|]. split; [done|]. split; [apply normalize_dom|].
    split_and!; by read_fields.
Qed.

(** What [updateRecipe] sends: one PUT whose body is the translated
    form, which has neither likes nor id. *)
Lemma updateRecipe_request (id : value) (form : obj) (s : S) (w : W) :
  let update := PUT (Receita (to_string id)) (denormalizeRecipe form) in
  sent (exec serve (updateRecipe id form) s w) = [(update, (serve s update).2)] ∧
  srv (exec serve (updateRecipe id form) s w) = (serve s update).1 ∧
  denormalizeRecipe form !! "likes" = None ∧
  denormalizeRecipe form !! "id" = None.
Proof.
  intros update. unfold exec, updateRecipe. simpl. fold update.
  destruct (serve s update) as [s1 [|d]]; simpl.
  - split_and!; try done; by read_fields.
  - unfold normalize_response.
    destruct (receita d); simpl; (split_and!; try done; by read_fields).
Qed.

End AnyServer.

Lemma likeRecipe_read_modify_write_witness :
  exec Store.serve (likeRecipe (VNum 9)) one_row ()
    = Run (Returned VNull) one_row () []
        [(GET (Receita "9"), Resolved Store.nothing)] ∧
  out (exec Store.serve (likeRecipe (VNum 2)) one_row ()) = Returned (VNum 6).
Proof.
  split.
  - refine (proj1 (likeRecipe_read_modify_write Store.serve (VNum 9)
                     one_row one_row () Store.nothing _) _);
      vm_compute; reflexivity.
  - destruct (likeRecipe_read_modify_write Store.serve (VNum 2)
                one_row one_row () (Store.one caldo_verde)) as [_ Hfound];
      [vm_compute; reflexivity|].
    destruct (Hfound caldo_verde) as (_ & _ & Hout & _);
      [vm_compute; reflexivity|].
    rewrite (Hout (Store.one (<["likes" := VNum 6]> caldo_verde)));
      vm_compute; reflexivity.
Defined.

Lemma createRecipe_zero_likes_witness :
  ∃ ui,
    out (exec Store.serve
           (createRecipe (<["likes" := VNum 41]> (form_of "Bolo" "b.jpg" "Doces")))
           one_row ())
      = Returned ui ∧
    ui !! "likes" = Some (VNum 0) ∧ ui !! "id" = Some (VNum 3) ∧
    ui !! "imagem_url" = Some (VStr "b.jpg").
Proof.
  destruct (createRecipe_zero_likes Store.serve
              (<["likes" := VNum 41]> (form_of "Bolo" "b.jpg" "Doces"))
              one_row ()) as (_ & _ & _ & _ & _ & _ & _ & _ & _ & _ & _ & Hout).
  destruct (Hout (Store.one
                    (<["id" := VNum 3]>
                       (<["likes" := VNum 0]>
                          (denormalizeRecipe (form_of "Bolo" "b.jpg" "Doces")))))
                 (<["id" := VNum 3]>
                    (<["likes" := VNum 0]>
                       (denormalizeRecipe (form_of "Bolo" "b.jpg" "Doces")))))
    as (ui & Hui & _ & _ & Hid & _ & Him & _ & _ & _ & Hlikes & _).
  - vm_compute. reflexivity.
  - reflexivity.
  - exists ui. split; [exact Hui|]. rewrite Hlikes, Hid, Him.
    vm_compute. split_and!; reflexivity.
Defined.

(** *** Against the reference sheet *)

Lemma json_lookup_None (body : obj) f :
  body !! f = None → Store.json body !! f = None.
Proof.
  intros Hf. unfold Store.json. rewrite lookup_fmap.
  by rewrite (proj2 (map_lookup_filter_None _ _ _) (or_introl Hf)).
Qed.

Lemma merge_keeps_likes (body r : obj) :
  body !! "likes" = None → (Store.json body ∪ r) !! "likes" = r !! "likes".
Proof.
  intros Hf. rewrite lookup_union, (json_lookup_None _ _ Hf).
  by destruct (r !! "likes").
Qed.

(** Every call of the adapter other than [likeRecipe] leaves the likes of
    every stored row as they were; the only row that can disappear is the
    one a [deleteRecipe] names. *)
Lemma only_like_changes_likes {W} (c : call) (sheet : Store.sheet) (w : W) i r :
  (∀ id, c ≠ LikeRecipe id) →
  Store.rows sheet !! i = Some r →
  match Store.rows (srv (exec Store.serve (perform c) sheet w)) !! i with
  | Some r' => r' !! "likes" = r !! "likes"
  | None => ∃ id, c = DeleteRecipe id ∧ to_string id = i
  end.
Proof.
  intros Hc Hi. destruct c as [|id| |id|form|id form|id|id]; unfold exec; simpl.
  - by rewrite Hi.
  - by rewrite Hi.
  - by rewrite Hi.
  - destruct (Store.rows sheet !! to_string id); simpl; by rewrite Hi.
  - destruct (Store.rows sheet !! pretty (Store.next_id sheet)) eqn:Hnew; simpl.
    + by rewrite Hi.
    + rewrite lookup_insert_ne by congruence. by rewrite Hi.
  - destruct (Store.rows sheet !! to_string id) as [r0|] eqn:Hrow; simpl.
    + destruct (decide (to_string id = i)) as [<-|Hne].
      * rewrite lookup_insert_eq. simplify_eq.
        apply merge_keeps_likes. by read_fields.
      * rewrite lookup_insert_ne by done. by rewrite Hi.
    + by rewrite Hi.
  - destruct (Store.rows sheet !! to_string id) as [r0|] eqn:Hrow; simpl.
    + destruct (decide (to_string id = i)) as [<-|Hne].
      * rewrite lookup_delete_eq. eauto.
      * rewrite lookup_delete_ne by done. by rewrite Hi.
    + by rewrite Hi.
  - by destruct (Hc id).
Qed.

(** C10.  For every form and identifier, the record [updateRecipe] PUTs
    is the translated form, which has no likes field and no id field.
    On the reference sheet, where a PUT overwrites only the columns it
    names, no call other than [likeRecipe] changes the likes of a stored
    row; a full-record update in particular keeps them. *)
Theorem updateRecipe_keeps_likes :
  (∀ (id : value) (form : obj) (sheet : Store.sheet),
     let update := PUT (Receita (to_string id)) (denormalizeRecipe form) in
     sent (exec (W:=unit) Store.serve (updateRecipe id form) sheet ())
       = [(update, (Store.serve sheet update).2)] ∧
     denormalizeRecipe form !! "likes" = None ∧
     denormalizeRecipe form !! "id" = None ∧
     ∀ i r, Store.rows sheet !! i = Some r →
       ∃ r', Store.rows (srv (exec (W:=unit) Store.serve
                                (updateRecipe id form) sheet ())) !! i = Some r' ∧
             r' !! "likes" = r !! "likes") ∧
  (∀ (c : call) (sheet : Store.sheet) i r,
     (∀ id, c ≠ LikeRecipe id) →
     Store.rows sheet !! i = Some r →
     match Store.rows (srv (exec (W:=unit) Store.serve (perform c) sheet ())) !! i with
     | Some r' => r' !! "likes" = r !! "likes"
     | None => ∃ id, c = DeleteRecipe id ∧ to_string id = i
     end).
Proof.
  split.
  - intros id form sheet update.
    destruct (updateRecipe_request Store.serve id form sheet ())
      as (Hsent & Hsrv & Hlikes & Hid).
    split_and!; try done.
    intros i r Hi. rewrite Hsrv. simpl.
    destruct (Store.rows sheet !! to_string id) as [r0|] eqn:Hrow; simpl.
    + destruct (decide (to_string id = i)) as [<-|Hne].
      * rewrite lookup_insert_eq. simplify_eq. eexists; split; [done|].
        by apply merge_keeps_likes.
      * rewrite lookup_insert_ne by done. eauto.
    + eauto.
  - intros c sheet i r. apply only_like_changes_likes.
Qed.

Lemma updateRecipe_keeps_likes_witness :
  ∃ r', Store.rows (srv (exec (W:=unit) Store.serve
                           (updateRecipe (VNum 2)
                              (<["likes" := VNum 41]> (form_of "Caldo" "c.jpg" "Sopas")))
                           one_row ())) !! "2" = Some r' ∧
        r' !! "likes" = Some (VNum 5) ∧ r' !! "titulo" = Some (VStr "Caldo").
Proof.
  destruct (proj1 updateRecipe_keeps_likes (VNum 2)
              (<["likes" := VNum 41]> (form_of "Caldo" "c.jpg" "Sopas")) one_row)
    as (_ & _ & _ & Hrow).
  destruct (Hrow "2" caldo_verde) as (r' & Hr' & Hlikes); [reflexivity|].
  exists r'. split; [exact Hr'|]. split.
  - rewrite Hlikes. reflexivity.
  - assert (Hput : Store.rows (srv (exec (W:=unit) Store.serve
                      (updateRecipe (VNum 2)
                         (<["likes" := VNum 41]> (form_of "Caldo" "c.jpg" "Sopas")))
                      one_row ())) !! "2"
              = Some (Store.json
                        (denormalizeRecipe
                           (<["likes" := VNum 41]> (form_of "Caldo" "c.jpg" "Sopas")))
                        ∪ caldo_verde)) by reflexivity.
    rewrite Hput in Hr'. apply (inj Some) in Hr'. rewrite <- Hr'.
    vm_compute. reflexivity.
Defined.

End CallFacts.

(** ** Home: what is on screen *)

Module HomeFacts.
Import Home Fixtures.

Lemma append_cons c (t after : string) :
  String c t +:+ after = String c (t +:+ after).
Proof. reflexivity. Qed.

Lemma append_nil (after : string) : "" +:+ after = after.
Proof. reflexivity. Qed.

Lemma prefix_spec (t s : string) :
  String.prefix t s = true ↔ ∃ after, s = t +:+ after.
Proof.
  revert s. induction t as [|c t IH]; intros s.
  - split; [intros _; by exists s|by destruct s].
  - destruct s as [|c' s].
    + split; [done|]. by intros [? [=]].
    + cbn [String.prefix]. setoid_rewrite append_cons.
      destruct (ascii_dec c c') as [->|Hne].
      * rewrite IH. split; intros [after H]; exists after; congruence.
      * split; [done|]. intros [after [= ? _]]. congruence.
Qed.

Lemma str_includes_spec (s t : string) :
  str_includes s t = true ↔ ∃ before after, s = before +:+ t +:+ after.
Proof.
  induction s as [|c r IH].
  - cbn [str_includes]. rewrite orb_false_r, prefix_spec. split.
    + intros [after H]. by exists "", after.
    + intros (before & after & H). destruct before; [eauto|discriminate].
  - cbn [str_includes]. rewrite orb_true_iff, prefix_spec, IH. split.
    + intros [[after H]|(before & after & H)].
      * by exists "", after.
      * exists (String c before), after. rewrite append_cons. by rewrite H.
    + intros (before & after & H). destruct before as [|c' before].
      * left. eauto.
      * right. exists before, after. rewrite append_cons in H. congruence.
Qed.

Lemma slice_page {A} (l : list A) (start : Z) :
  0 ≤ start →
  slice l start (start + recipesPerPage)
    = take 6 (drop (Z.to_nat start) l).
Proof.
  intros Hstart. unfold slice, recipesPerPage.
  destruct (Z.ltb_spec start 0); [lia|].
  destruct (Z.ltb_spec (start + 6) 0); [lia|].
  destruct (Z_le_gt_dec (Z.of_nat (length l)) start) as [Hout|Hin].
  - rewrite Z.min_r by lia.
    rewrite (drop_ge l (Z.to_nat start)) by lia.
    rewrite drop_ge by lia. by rewrite !take_nil.
  - rewrite (Z.min_l start) by lia.
    set (rest := drop (Z.to_nat start) l).
    assert (Hlen : length rest = (length l - Z.to_nat start)%nat)
      by apply length_drop.
    destruct (Z_le_gt_dec (start + 6) (Z.of_nat (length l))).
    + rewrite Z.min_l by lia. f_equal. lia.
    + rewrite Z.min_r by lia. rewrite !take_ge; [done|lia|lia].
Qed.

Lemma ceil_div_bounds (a : Z) :
  recipesPerPage * (ceil_div a recipesPerPage - 1) < a
    ≤ recipesPerPage * ceil_div a recipesPerPage.
Proof.
  unfold ceil_div, recipesPerPage.
  pose proof (Z.div_mod (- a) 6 ltac:(lia)).
  pose proof (Z.mod_pos_bound (- a) 6 ltac:(lia)). lia.
Qed.

Section Filter.
Variable lower : string → string.
Variable searchTerm : string.

Lemma keeps_spec (recipe : obj) :
  keeps lower searchTerm recipe = true ↔ title_contains lower searchTerm recipe.
Proof.
  unfold keeps, matches, title_contains.
  destruct (get "titulo" recipe) as [| |b|n| |t]; simpl;
    try (split; [done|by intros (?&?&?&?&?)]).
  rewrite str_includes_spec. split.
  - intros (before & after & H). by exists t, before, after.
  - intros (t' & before & after & [= <-] & H). eauto.
Qed.

Lemma filteredRecipes_total (recipes : list obj) :
  (∀ r, r ∈ recipes → ∃ t, get "titulo" r = VStr t) →
  filteredRecipes lower recipes searchTerm = Some (List.filter (keeps lower searchTerm) recipes).
Proof.
  induction recipes as [|r rest IH]; intros Htitles; [done|].
  cbn [filteredRecipes List.filter].
  destruct (Htitles r) as [t Ht]; [by left|].
  rewrite IH by (intros; apply Htitles; by right).
  unfold keeps, matches. rewrite Ht. simpl.
  by destruct (str_includes _ _).
Qed.

Lemma filter_nothing (recipes : list obj) :
  (∀ r, r ∈ recipes → ¬ title_contains lower searchTerm r) →
  List.filter (keeps lower searchTerm) recipes = [].
Proof.
  induction recipes as [|r rest IH]; intros Hnone; [done|].
  cbn [List.filter].
  destruct (keeps lower searchTerm r) eqn:Hk.
  - apply keeps_spec in Hk. destruct (Hnone r); [by left|done].
  - apply IH. intros; apply Hnone; by right.
Qed.

End Filter.

(** C5.  On a collection whose titles are text, with the page at least 1:
    the filtered list is the collection restricted, in order, to the
    recipes whose lower-cased title contains the lower-cased search text
    (only the title is looked at); the visible recipes are the at most six
    at indices (p-1)*6 .. (p-1)*6+5 of the filtered list; the page count
    is the ceiling of the filtered count over 6; and a search text that
    matches no title leaves nothing visible and a page count of 0. *)
Theorem visible_recipes (lower : string → string) (recipes : list obj)
    (searchTerm : string) (p : Z) :
  1 ≤ p →
  (∀ r, r ∈ recipes → ∃ t, get "titulo" r = VStr t) →
  ∃ (keep : obj → bool) (filtered : list obj),
    filteredRecipes lower recipes searchTerm = Some filtered ∧
    (∀ r, keep r = true ↔ title_contains lower searchTerm r) ∧
    filtered = List.filter keep recipes ∧
    paginatedRecipes filtered p
      = take 6 (drop (Z.to_nat ((p - 1) * 6)) filtered) ∧
    (∀ i : nat, (i < 6)%nat →
       paginatedRecipes filtered p !! i
         = filtered !! (Z.to_nat ((p - 1) * 6) + i)%nat) ∧
    (length (paginatedRecipes filtered p) ≤ 6)%nat ∧
    6 * (totalPages filtered - 1) < Z.of_nat (length filtered)
      ≤ 6 * totalPages filtered ∧
    ((∀ r, r ∈ recipes → ¬ title_contains lower searchTerm r) →
       filtered = [] ∧ paginatedRecipes filtered p = [] ∧ totalPages filtered = 0).
Proof.
  intros Hp Htitles.
  exists (keeps lower searchTerm), (List.filter (keeps lower searchTerm) recipes).
  assert (Hpage : ∀ l : list obj,
            paginatedRecipes l p = take 6 (drop (Z.to_nat ((p - 1) * 6)) l)).
  { intros l. unfold paginatedRecipes, startIndex.
    rewrite slice_page by (unfold recipesPerPage; lia). done. }
  split_and!.
  - by apply filteredRecipes_total.
  - apply keeps_spec.
  - done.
  - apply Hpage.
  - intros i Hi. rewrite Hpage, lookup_take_lt by done. by rewrite lookup_drop.
  - rewrite Hpage, length_take. lia.
  - apply (ceil_div_bounds (Z.of_nat (length (List.filter (keeps lower searchTerm) recipes)))).
  - apply (ceil_div_bounds (Z.of_nat (length (List.filter (keeps lower searchTerm) recipes)))).
  - intros Hnone. rewrite (filter_nothing _ _ _ Hnone).
    split_and!; [done| |done]. rewrite Hpage. by rewrite drop_nil.
Qed.

Lemma visible_recipes_witness :
  ∃ filtered,
    filteredRecipes ascii_lower (normalizeRecipe <$> seven) "r" = Some filtered ∧
    paginatedRecipes filtered 2
      = take 6 (drop (Z.to_nat ((2 - 1) * 6)) filtered) ∧
    6 * (totalPages filtered - 1) < Z.of_nat (length filtered)
      ≤ 6 * totalPages filtered.
Proof.
  destruct (visible_recipes ascii_lower (normalizeRecipe <$> seven) "r" 2)
    as (keep & filtered & Hf & _ & _ & Hpage & _ & _ & [Hlo Hhi] & _).
  - lia.
  - intros r Hr. unfold seven in Hr. rewrite <- list_fmap_compose in Hr.
    cbn [fmap list_fmap] in Hr.
    repeat (apply elem_of_cons in Hr as [->|Hr]); [..|by apply elem_of_nil in Hr];
      eexists; vm_compute; reflexivity.
  - exists filtered. split_and!; assumption.
Defined.

Example page_two :
  ((λ filtered, paginatedRecipes filtered 2)
     <$> filteredRecipes ascii_lower (normalizeRecipe <$> seven) "r")
    = Some [normalizeRecipe (receita_of 7 "R7" "Sopas" 0)] ∧
  (totalPages <$> filteredRecipes ascii_lower (normalizeRecipe <$> seven) "R")
    = Some 2 ∧
  (totalPages <$> filteredRecipes ascii_lower (normalizeRecipe <$> seven) "bolo")
    = Some 0.
Proof. split_and!; vm_compute; reflexivity. Qed.

End HomeFacts.

(** ** AdminDashboard: one save or delete at a time *)

Module AdminFacts.
Import Admin Fixtures.

Ltac finishes := eexists _, _; split_and!; reflexivity.

Ltac is_left_over :=
  split; [reflexivity|]; split; [reflexivity|];
  intros [|?] ? ?; simpl; by eexists.

Ltac reads_last :=
  split; [reflexivity|]; split; [reflexivity|];
  intros [|?] ? ?; simpl; eexists _, _; (split; [reflexivity|done]).

Ltac answers_first :=
  intros [|?] ? ?; simpl;
  [ left; eexists _, _, _; split; [reflexivity|]; split; [done|]; is_left_over
  | right; eexists _, _; split; [reflexivity|]; reads_last ].

Ltac reads_both :=
  split; [reflexivity|]; split; [answers_first|];
  eexists; split; [reflexivity|]; answers_first.

Lemma loadData_reads w c :
  ∃ t, advance loadData w c = (setLoading true w, c, [t]) ∧
       reading_both false t.
Proof. eexists. split; [reflexivity|]. reads_both. Qed.

Lemma handleSubmit_saving w : saving w = true → handleSubmit w = Ret tt.
Proof. unfold handleSubmit. by intros ->. Qed.

Lemma handleSubmit_rejects w :
  saving w = false → fields_missing w = true →
  handleSubmit w = console_error "Campos obrigatórios em falta".
Proof. unfold handleSubmit, fields_missing. by intros -> ->. Qed.

Lemma handleSubmit_starts w c :
  saving w = false → fields_missing w = false →
  ∃ t, advance (handleSubmit w) w c = (setSaving true w, c, [t]) ∧
       awaiting t = submit_request w ∧ mutating t.
Proof.
  unfold handleSubmit, fields_missing, submit_request. intros -> ->.
  destruct (editingRecipe w) as [editing|]; simpl;
    (eexists; split; [reflexivity|]; split; [reflexivity|]);
    (split; [reflexivity|]; split; [reflexivity|]; intros [|d] w' c'; simpl;
     [ right; eexists _, _; split; [reflexivity|]; reads_both
     | unfold normalize_response; destruct (receita d); simpl;
       [ left; finishes
       | right; eexists _, _; split; [reflexivity|]; reads_both ] ]).
Qed.

Lemma handleDelete_starts w c deleting :
  deletingRecipe w = Some deleting →
  ∃ t, advance (handleDelete w) w c = (setSaving true w, c, [t]) ∧
       awaiting t = DELETE (Receita (to_string (get "id" deleting))) ∧ mutating t.
Proof.
  unfold handleDelete. intros ->. simpl.
  eexists; split; [reflexivity|]; split; [reflexivity|].
  split; [reflexivity|]. split; [reflexivity|]. intros [|d] w' c'; simpl.
  - right; eexists _, _; split; [reflexivity|]; reads_both.
  - left; finishes.
Qed.

(** Actions other than submit and confirm-delete only edit the view. *)
Lemma dispatch_local a w c :
  a ≠ Submit → a ≠ ConfirmDelete →
  ∃ w', advance (dispatch a w) w c = (w', c, []) ∧
        saving w' = saving w ∧ loading w' = loading w ∧ recipes w' = recipes w.
Proof.
  intros Hs Hd. unfold dispatch. destruct (loading w) eqn:Hl; [by eexists|].
  destruct a; try done; simpl; repeat case_match; simpl; by eexists.
Qed.

Lemma dispatch_busy a w :
  a = Submit ∨ a = ConfirmDelete →
  saving w = true ∨ loading w = true →
  dispatch a w = Ret tt.
Proof.
  intros Ha Hbusy. unfold dispatch. destruct (loading w) eqn:Hl; [done|].
  destruct Hbusy as [Hsv|?]; [|done].
  destruct Ha as [-> | ->].
  - rewrite (handleSubmit_saving _ Hsv). by destruct (showModal w).
  - rewrite Hsv. by rewrite andb_false_r.
Qed.

(** Where the [i]-th element of a list with a marked element lies. *)
Lemma lookup_middle {A} (l1 l2 : list A) (t t0 : A) (i : nat) :
  (l1 ++ t :: l2) !! i = Some t0 →
  (l1 !! i = Some t0 ∧ delete i (l1 ++ t :: l2) = delete i l1 ++ t :: l2) ∨
  (t0 = t ∧ delete i (l1 ++ t :: l2) = l1 ++ l2) ∨
  (∃ j, l2 !! j = Some t0 ∧ delete i (l1 ++ t :: l2) = l1 ++ t :: delete j l2).
Proof.
  revert i. induction l1 as [|a l1 IH]; intros i Hi.
  - destruct i as [|j]; simpl in *.
    + right; left. by inversion Hi.
    + right; right. by exists j.
  - destruct i as [|i]; simpl in *.
    + by left.
    + destruct (IH i Hi) as [(? & ->)|[(? & ->)|(j & ? & ->)]]; eauto.
Qed.

(** A left-over read is not the function the flags stand for. *)
Lemma left_over_not_busy w t : left_over t → busy w t → False.
Proof.
  intros (Hq & Ha & Ht) [((Hm & _) & _)|(fin & [(_ & _ & k & Hk & _)|(_ & _ & Hr)] & Hl & _)].
  - congruence.
  - congruence.
  - destruct (Ht Rejected w []) as (c1 & H1).
    destruct (Hr Rejected w []) as (w' & c2 & H2 & Hl' & _).
    rewrite H1 in H2. congruence.
Qed.

Lemma busy_flag w t : busy w t → saving w = true ∨ loading w = true.
Proof. intros [(_ & ? & _)|(fin & _ & ? & _)]; auto. Qed.

Section Steps.
Context {S : Type}.
Variable serve : S → request → S * reply.

Abbreviation step := (Async.step serve dispatch).
Abbreviation steps := (Async.steps serve dispatch).

Lemma start_returns (σ : sys state S) : start (Ret tt) σ = σ.
Proof. destruct σ. unfold start. simpl. by rewrite app_nil_r. Qed.

Lemma noop_while_busy (σ : sys state S) a :
  a = Submit ∨ a = ConfirmDelete →
  saving (world σ) = true ∨ loading (world σ) = true →
  step σ (User a) = σ.
Proof.
  intros Ha Hbusy. simpl. rewrite dispatch_busy by done. apply start_returns.
Qed.

Lemma serialized_mount (s : S) : serialized (mount s).
Proof.
  unfold mount, start. cbn [world console].
  destruct (loadData_reads initial []) as (t & Hadv & Ht).
  rewrite Hadv. right. exists [], t, []. split_and!; [done..|].
  right. exists false. eauto.
Qed.

Lemma serialized_user (σ : sys state S) a :
  serialized σ → serialized (step σ (User a)).
Proof.
  intros Hinv.
  assert (Hcase : (a = Submit ∨ a = ConfirmDelete) ∨ (a ≠ Submit ∧ a ≠ ConfirmDelete))
    by (destruct a; auto).
  destruct Hcase as [Ha|Ha].
  - (* submit or confirm-delete *)
    destruct Hinv as [(Hp & Hs & Hl)|(l1 & t & l2 & Hp & H1 & H2 & Hbusy)].
    + simpl. unfold dispatch. rewrite Hl.
      destruct Ha as [-> | ->].
      * destruct (showModal (world σ));
          [|rewrite start_returns; left; done].
        destruct (fields_missing (world σ)) eqn:Hm.
        -- rewrite (handleSubmit_rejects _ Hs Hm). unfold start. simpl.
           left. rewrite app_nil_r. done.
        -- destruct (handleSubmit_starts (world σ) (console σ) Hs Hm)
             as (t & Hadv & _ & Ht).
           unfold start. rewrite Hadv. simpl. right. exists (pending σ), t, [].
           split_and!; [done|done|done|]. left. done.
      * rewrite Hs, andb_true_r.
        destruct (showDeleteModal (world σ));
          [|rewrite start_returns; left; done].
        destruct (deletingRecipe (world σ)) as [deleting|] eqn:Hdel.
        -- destruct (handleDelete_starts (world σ) (console σ) _ Hdel)
             as (t & Hadv & _ & Ht).
           unfold start. rewrite Hadv. simpl. right. exists (pending σ), t, [].
           split_and!; [done|done|done|]. left. done.
        -- unfold handleDelete. rewrite Hdel. rewrite start_returns. left; done.
    + rewrite noop_while_busy; [right; by eauto 10|done|].
      by eapply busy_flag.
  - (* the view is edited, nothing is sent *)
    destruct (dispatch_local a (world σ) (console σ)) as (w' & Hadv & Hs & Hl & _);
      [tauto..|].
    simpl. unfold start. rewrite Hadv.
    unfold serialized, busy in *. cbn [world pending].
    rewrite app_nil_r, Hs, Hl. exact Hinv.
Qed.

(** The answer to a left-over read. *)
Lemma serialized_left_over (σ : sys state S) i t :
  pending σ !! i = Some t → left_over t →
  serialized σ → serialized (answer serve i (awaiting t) (resume t) σ).
Proof.
  intros Hi Hlo Hinv. unfold answer.
  destruct (serve (remote σ) (awaiting t)) as [s x].
  destruct Hlo as (Hq & Ha & Ht).
  destruct (Ht x (world σ) (console σ)) as (c' & ->).
  unfold serialized. cbn [world pending]. rewrite app_nil_r.
  destruct Hinv as [(Hp & Hs & Hl)|(l1 & t1 & l2 & Hp & H1 & H2 & Hbusy)].
  - left. split_and!; [by apply Forall_delete|done..].
  - rewrite Hp in Hi. rewrite Hp.
    destruct (lookup_middle _ _ _ _ _ Hi) as [(Hi1 & ->)|[(-> & _)|(j & Hj & ->)]].
    + right. exists (delete i l1), t1, l2. split_and!; [done| |done..].
      by apply Forall_delete.
    + destruct (left_over_not_busy (world σ) t1); done.
    + right. exists l1, t1, (delete j l2). split_and!; [done|done| |done].
      by apply Forall_delete.
Qed.

Lemma mutating_goes_on w t :
  mutating t → saving w = true → loading w = false → goes_on w (resume t).
Proof.
  intros (_ & _ & Hm) Hs Hl x c.
  destruct (Hm x w c) as [(w' & c' & Hadv & Hs' & Hl')|(c' & t' & Hadv & Ht')].
  - left. exists w', c', []. split_and!; [done|done|done|congruence].
  - right. exists (setLoading true w), c', t'. split; [done|].
    right. exists true. split_and!; [by left|done|done].
Qed.

Lemma first_answer_goes_on w fin k :
  first_answer fin k → loading w = true → saving w = fin → goes_on w k.
Proof.
  intros Hk Hl Hs x c.
  destruct (Hk x w c) as [(w' & c' & t' & Hadv & (Hl' & Hs') & Ht')
                         |(c' & t' & Hadv & Ht')].
  - left. exists w', c', [t']. split_and!; [done|by constructor| |done].
    rewrite Hs'. destruct fin; congruence.
  - right. exists w, c', t'. split; [done|].
    right. exists fin. split_and!; [by right|done|done].
Qed.

Lemma reading_last_goes_on w fin t :
  reading_last fin t → loading w = true → saving w = fin → goes_on w (resume t).
Proof.
  intros (_ & _ & Hr) Hl Hs x c.
  destruct (Hr x w c) as (w' & c' & Hadv & Hl' & Hs').
  left. exists w', c', []. split_and!; [done|done| |done].
  rewrite Hs'. destruct fin; congruence.
Qed.

(** The answer to a call of the function the flags stand for. *)
Lemma serialized_goes_on (σ : sys state S) i l1 t l2 r k :
  pending σ = l1 ++ t :: l2 → delete i (pending σ) = l1 ++ l2 →
  Forall left_over l1 → Forall left_over l2 →
  goes_on (world σ) k →
  serialized (answer serve i r k σ).
Proof.
  intros Hp Hdel H1 H2 Hk. unfold answer.
  destruct (serve (remote σ) r) as [s x].
  destruct (Hk x (console σ)) as [(w' & c' & ts & -> & Hts & Hs & Hl)
                                 |(w' & c' & t' & -> & Ht')];
    unfold serialized; cbn [world pending]; rewrite Hdel.
  - left. split_and!; [|done..]. rewrite !Forall_app. done.
  - right. exists (l1 ++ l2), t', []. split_and!; [done| |done..].
    rewrite Forall_app. done.
Qed.

Lemma serialized_deliver (σ : sys state S) i :
  serialized σ → serialized (step σ (Deliver i)).
Proof.
  intros Hinv. simpl. unfold deliver.
  destruct (pending σ !! i) as [t0|] eqn:Hi; [|done].
  destruct Hinv as [(Hp & Hs & Hl)|(l1 & t & l2 & Hp & H1 & H2 & Hbusy)].
  - apply serialized_left_over; [done| |left; done].
    by eapply Forall_lookup_1.
  - pose proof Hi as Hi'. rewrite Hp in Hi'.
    destruct (lookup_middle _ _ _ _ _ Hi') as [(Hi1 & _)|[(-> & Hdel)|(j & Hj & _)]].
    + apply serialized_left_over;
        [done|exact (Forall_lookup_1 _ _ _ _ H1 Hi1)|].
      right. by eauto 10.
    + rewrite <- Hp in Hdel.
      apply (serialized_goes_on σ i l1 t l2); [done..|].
      destruct Hbusy as [(Hm & Hs & Hl)|(fin & [(_ & Hr & _)|Hr] & Hl & Hs)].
      * by apply mutating_goes_on.
      * by eapply first_answer_goes_on.
      * by eapply reading_last_goes_on.
    + apply serialized_left_over;
        [done|exact (Forall_lookup_1 _ _ _ _ H2 Hj)|].
      right. by eauto 10.
Qed.

Lemma serialized_deliver_other (σ : sys state S) i j :
  serialized σ → serialized (step σ (DeliverOther i j)).
Proof.
  intros Hinv. simpl. unfold deliver_other.
  destruct (pending σ !! i) as [t0|] eqn:Hi; [|done].
  destruct (also t0 !! j) as [rk|] eqn:Hj; [|done].
  assert (Hsome : also t0 ≠ []) by (intros Hno; by rewrite Hno in Hj).
  destruct Hinv as [(Hp & Hs & Hl)|(l1 & t & l2 & Hp & H1 & H2 & Hbusy)].
  - destruct (Forall_lookup_1 _ _ _ _ Hp Hi) as (_ & ? & _). done.
  - pose proof Hi as Hi'. rewrite Hp in Hi'.
    destruct (lookup_middle _ _ _ _ _ Hi') as [(Hi1 & _)|[(-> & Hdel)|(j' & Hj' & _)]].
    + destruct (Forall_lookup_1 _ _ _ _ H1 Hi1) as (_ & ? & _). done.
    + rewrite <- Hp in Hdel.
      destruct Hbusy as [((_ & ? & _) & _)
                        |(fin & [(_ & _ & k & Hk & Hfirst)|(_ & ? & _)] & Hl & Hs)];
        [done| |done].
      rewrite Hk in Hj. destruct j as [|j]; [|done]. injection Hj as <-.
      apply (serialized_goes_on σ i l1 t l2); [done..|].
      by eapply first_answer_goes_on.
    + destruct (Forall_lookup_1 _ _ _ _ H2 Hj') as (_ & ? & _). done.
Qed.

Lemma serialized_steps (σ : sys state S) evs :
  serialized σ → serialized (steps σ evs).
Proof.
  revert σ. induction evs as [|ev evs IH]; intros σ Hinv; [done|].
  apply IH. destruct ev;
    [by apply serialized_user|by apply serialized_deliver
    |by apply serialized_deliver_other].
Qed.

Lemma mutations_left_over (l : list (task state)) :
  Forall left_over l → List.filter (λ t, is_mutation (awaiting t)) l = [].
Proof.
  induction 1 as [|t l (Hq & _) _ IH]; [done|]. simpl. by rewrite Hq.
Qed.

(** C7.  While [saving] is set, a submit and a confirmed delete leave the
    whole system as it was: nothing is sent and no state changes
    ([handleSubmit] returns at once, the delete button is disabled).
    From mounting on, the suspended functions are left-over reads, whose
    answers change nothing in the view, and at most one other function:
    so at most one POST, PUT or DELETE is ever awaited, [saving] is set
    while it is, and while that function is suspended a further submit
    or delete does nothing.  No POST, PUT or DELETE is ever in flight
    beside another call of the same function. *)
Theorem saving_serializes :
  (∀ (σ : sys state S) a,
     a = Submit ∨ a = ConfirmDelete →
     saving (world σ) = true →
     step σ (User a) = σ) ∧
  (∀ w, saving w = true → handleSubmit w = Ret tt) ∧
  (∀ (s : S) evs,
     let σ := steps (mount s) evs in
     (Forall left_over (pending σ) ∨
      ∃ l1 t l2, pending σ = l1 ++ t :: l2 ∧
                 Forall left_over l1 ∧ Forall left_over l2) ∧
     (length (List.filter (λ t, is_mutation (awaiting t)) (pending σ)) ≤ 1)%nat ∧
     (∀ t, t ∈ pending σ → is_mutation (awaiting t) = true →
           saving (world σ) = true) ∧
     (∀ t rk, t ∈ pending σ → rk ∈ also t → is_mutation rk.1 = false) ∧
     (∀ a, ¬ Forall left_over (pending σ) → a = Submit ∨ a = ConfirmDelete →
           step σ (User a) = σ)).
Proof.
  split_and!.
  - intros σ a Ha Hs. apply noop_while_busy; auto.
  - apply handleSubmit_saving.
  - intros s evs σ.
    pose proof (serialized_steps (mount s) evs (serialized_mount s)) as Hinv.
    fold σ in Hinv.
    assert (Hlo : ∀ l t, Forall left_over l → t ∈ l →
                    is_mutation (awaiting t) = false ∧ also t = []).
    { intros l t Hl Ht. rewrite Forall_forall in Hl.
      destruct (Hl t Ht) as (? & ? & _). done. }
    destruct Hinv as [(Hp & Hs & Hl)|(l1 & t & l2 & Hp & H1 & H2 & Hbusy)].
    + split_and!.
      * by left.
      * rewrite mutations_left_over by done. simpl. lia.
      * intros t Ht Hm. destruct (Hlo _ _ Hp Ht). congruence.
      * intros t rk Ht Hrk. destruct (Hlo _ _ Hp Ht) as [_ Ha].
        rewrite Ha in Hrk. by apply elem_of_nil in Hrk.
      * intros a Hn. by destruct Hn.
    + assert (Halso : ∀ rk, rk ∈ also t → is_mutation rk.1 = false).
      { intros rk Hrk.
        destruct Hbusy as [((_ & Ha & _) & _)
                          |(fin & [(_ & _ & k & Ha & _)|(_ & Ha & _)] & _)];
          rewrite Ha in Hrk;
          [by apply elem_of_nil in Hrk| |by apply elem_of_nil in Hrk].
        by apply list_elem_of_singleton in Hrk as ->. }
      split_and!.
      * right. by eauto 10.
      * rewrite Hp, List.filter_app. cbn [List.filter].
        rewrite !mutations_left_over by done.
        destruct (is_mutation (awaiting t)); simpl; lia.
      * intros t' Ht' Hm. rewrite Hp in Ht'.
        apply elem_of_app in Ht' as [Ht'|Ht'];
          [destruct (Hlo _ _ H1 Ht'); congruence|].
        apply elem_of_cons in Ht' as [->|Ht'];
          [|destruct (Hlo _ _ H2 Ht'); congruence].
        destruct Hbusy as [(_ & ? & _)|(fin & [(Hq & _)|(Hq & _)] & _)];
          [done|rewrite Hq in Hm; done..].
      * intros t' rk Ht' Hrk. rewrite Hp in Ht'.
        apply elem_of_app in Ht' as [Ht'|Ht'].
        { destruct (Hlo _ _ H1 Ht') as [_ Ha]. rewrite Ha in Hrk.
          by apply elem_of_nil in Hrk. }
        apply elem_of_cons in Ht' as [->|Ht']; [by apply Halso|].
        destruct (Hlo _ _ H2 Ht') as [_ Ha]. rewrite Ha in Hrk.
        by apply elem_of_nil in Hrk.
      * intros a _ Ha. apply noop_while_busy; [done|]. by eapply busy_flag.
Qed.

(** C9.  A submit while the title, the image URL or the category of
    the form is empty sends nothing and changes no state: the pending
    calls, the requests made, the remote side and the whole view, the
    recipe collection included, stay as they were.  The only trace is
    the console message, written when the submit reached the check. *)
Theorem submit_rejects_empty_fields (σ : sys state S) :
  get "titulo" (formData (world σ)) = VStr "" ∨
  get "imagem_url" (formData (world σ)) = VStr "" ∨
  get "categoria_id" (formData (world σ)) = VStr "" →
  let σ' := step σ (User Submit) in
  pending σ' = pending σ ∧
  history σ' = history σ ∧
  remote σ' = remote σ ∧
  world σ' = world σ ∧
  recipes (world σ') = recipes (world σ) ∧
  (console σ' = console σ ∨
   console σ' = (console σ ++ ["Campos obrigatórios em falta"])) ∧
  (loading (world σ) = false → showModal (world σ) = true →
   saving (world σ) = false →
   console σ' = (console σ ++ ["Campos obrigatórios em falta"])) ∧
  (saving (world σ) = false →
   handleSubmit (world σ) = console_error "Campos obrigatórios em falta").
Proof.
  intros Hempty σ'.
  assert (Hm : fields_missing (world σ) = true).
  { unfold fields_missing.
    destruct Hempty as [-> | [-> | ->]]; simpl; by rewrite ?orb_true_r. }
  assert (Hcheck : saving (world σ) = false →
            handleSubmit (world σ) = console_error "Campos obrigatórios em falta")
    by (intros; by apply handleSubmit_rejects).
  subst σ'. simpl. unfold dispatch.
  destruct (loading (world σ)) eqn:Hl;
    [rewrite start_returns; split_and!; auto; done|].
  destruct (showModal (world σ)) eqn:Hsm;
    [|rewrite start_returns; split_and!; auto; done].
  destruct (saving (world σ)) eqn:Hs.
  - rewrite (handleSubmit_saving _ Hs), start_returns. split_and!; auto; done.
  - rewrite (handleSubmit_rejects _ Hs Hm). unfold start.
    cbn [advance console_error pending history remote world console].
    rewrite app_nil_r. split_and!; auto.
Qed.

End Steps.

(** C8.  A confirmed delete of the recipe [deleting] awaits one DELETE
    for its identifier.  When that call resolves, the collection becomes
    the collection held at that moment without the records whose id is
    strictly equal to the deleted id: the records kept are records of
    the previous collection, in the same order and untouched, and every
    previous record with another id is kept. *)
Theorem delete_removes_exactly (w : state) (c : list string) (deleting : obj) :
  deletingRecipe w = Some deleting →
  ∃ k,
    advance (handleDelete w) w c
      = (setSaving true w, c,
         [Task (DELETE (Receita (to_string (get "id" deleting)))) k]) ∧
    ∀ d prev c', ∃ after,
      advance (k (Resolved d)) prev c' = (after, c', []) ∧
      recipes after
        = List.filter (λ r, strict_ne (get "id" r) (get "id" deleting)) (recipes prev) ∧
      (∀ r, r ∈ recipes after ↔
            r ∈ recipes prev ∧ strict_eq (get "id" r) (get "id" deleting) = false) ∧
      sublist (recipes after) (recipes prev) ∧
      categories after = categories prev ∧
      saving after = false ∧
      showDeleteModal after = false ∧
      deletingRecipe after = None.
Proof.
  intros Hdel. unfold handleDelete. rewrite Hdel. simpl.
  eexists. split; [reflexivity|].
  intros d prev c'. simpl. eexists. split; [reflexivity|]. simpl.
  split_and!; try reflexivity.
  - intros r. rewrite !list_elem_of_In, filter_In. unfold strict_ne.
    by rewrite negb_true_iff.
  - induction (recipes prev) as [|r rs IH]; simpl; [constructor|].
    destruct (strict_ne _ _); by constructor.
Qed.

Lemma delete_removes_exactly_witness :
  ∃ k after,
    advance (handleDelete confirming) confirming []
      = (setSaving true confirming, [], [Task (DELETE (Receita "2")) k]) ∧
    advance (k (Resolved Store.nothing)) (setSaving true confirming) []
      = (after, [], []) ∧
    recipes after
      = normalizeRecipe <$>
          [receita_of 1 "Bacalhau" "Peixe" 3; receita_of 3 "Arroz Doce" "Doces" 1].
Proof.
  destruct (delete_removes_exactly confirming [] (normalizeRecipe caldo_verde))
    as (k & Hstart & Hdone); [reflexivity|].
  destruct (Hdone Store.nothing (setSaving true confirming) [])
    as (after & Hadv & Hrec & _).
  exists k, after. split_and!.
  - exact Hstart.
  - exact Hadv.
  - rewrite Hrec. reflexivity.
Defined.

Lemma saving_serializes_witness :
  Async.step Store.serve dispatch saving_now (User ConfirmDelete) = saving_now ∧
  Async.step Store.serve dispatch saving_now (User Submit) = saving_now.
Proof.
  destruct (saving_serializes Store.serve) as (Hnoop & _ & _).
  split; apply Hnoop; auto.
Defined.

Lemma submit_rejects_empty_fields_witness :
  pending (Async.step Store.serve dispatch empty_title (User Submit)) = [] ∧
  history (Async.step Store.serve dispatch empty_title (User Submit)) = [] ∧
  recipes (world (Async.step Store.serve dispatch empty_title (User Submit))) = three ∧
  console (Async.step Store.serve dispatch empty_title (User Submit))
    = ["Campos obrigatórios em falta"].
Proof.
  destruct (submit_rejects_empty_fields Store.serve empty_title)
    as (Hp & Hh & _ & _ & Hr & _ & Hc & _).
  - left. reflexivity.
  - split_and!; [exact Hp|exact Hh|exact Hr|by apply Hc].
Defined.

Example submit_then_submit :
  let σ := Async.steps Store.serve dispatch (mount one_row)
             [Deliver 0; Deliver 0; User ClickAdd;
              User (Change "titulo" "Bolo"); User (Change "imagem_url" "b.jpg");
              User (Change "categoria_id" "Doces"); User Submit; User Submit] in
  length (pending σ) = 1%nat ∧ saving (world σ) = true ∧
  (awaiting <$> pending σ)
    = [POST Receitas
         (<["likes" := VNum 0]>
            (denormalizeRecipe
               (<["categoria_id" := VStr "Doces"]>
                  (<["imagem_url" := VStr "b.jpg"]>
                     (<["titulo" := VStr "Bolo"]> emptyForm)))))] ∧
  length (recipes (world (Async.step Store.serve dispatch σ (Deliver 0)))) = 2%nat.
Proof. vm_compute. split_and!; reflexivity. Qed.

End AdminFacts.

(** ** RecipeDetail: one like per client *)

Module DetailFacts.
Import Detail Fixtures.

Lemma add_one_not_null a : strict_ne (add a (VNum 1)) VNull = true.
Proof. by destruct a as [| |[]| | |]. Qed.

Lemma handleLike_guard w :
  isLiking w = true ∨ liked w = true → handleLike w = Ret tt.
Proof.
  unfold handleLike. intros [-> | ->]; [done|]. by rewrite orb_true_r.
Qed.

Lemma handleLike_starts w c :
  isLiking w = false → liked w = false →
  ∃ t, advance (handleLike w) w c = (setIsLiking true w, c, [t]) ∧
       like_get (id w) t.
Proof.
  unfold handleLike. intros -> ->. simpl.
  eexists. split; [reflexivity|]. split; [reflexivity|]. split; [reflexivity|].
  intros [|d] w' c'; simpl.
  - left. by eexists.
  - destruct (receita d) as [r|]; simpl.
    + right. eexists. split; [reflexivity|].
      split; [by eexists|]. split; [reflexivity|]. intros [|d2] w'' c''; simpl.
      * by eexists.
      * rewrite add_one_not_null. simpl. by eexists.
    + left. by eexists.
Qed.

Lemma loadRecipe_starts w c :
  ∃ t, advance (loadRecipe w) w c = (setLoading true w, c, [t]) ∧
       loading_recipe (id w) t.
Proof.
  eexists. split; [reflexivity|]. split; [reflexivity|]. split; [reflexivity|].
  intros [|d] w' c'; simpl.
  - eexists _, _. split_and!; try reflexivity. by left.
  - destruct (receita d) as [r|]; simpl.
    + eexists _, _. split_and!; try reflexivity. by right.
    + eexists _, _. split_and!; try reflexivity. by left.
Qed.

Lemma acks_snoc h qx : acks (h ++ [qx]) = (acks h + (if acked qx then 1 else 0))%nat.
Proof.
  unfold acks. rewrite List.filter_app, length_app. simpl.
  by destruct (acked qx).
Qed.

Lemma includes_spec l x : includes l x = true ↔ x ∈ l.
Proof.
  unfold includes, same_value_zero. rewrite existsb_exists. split.
  - intros (y & Hy & Heq). apply bool_decide_eq_true in Heq as ->.
    by apply list_elem_of_In.
  - intros Hx. exists x. split; [by apply list_elem_of_In|].
    by apply bool_decide_eq_true.
Qed.

(** What [setItem] stores after a like: the old set and the parsed id. *)
Lemma stored_after_like l x :
  includes (json_element <$> (l ++ [x])) (json_element x) = true ∧
  ∀ n, includes l (VNum n) = true →
       includes (json_element <$> (l ++ [x])) (VNum n) = true.
Proof.
  split.
  - apply includes_spec. rewrite fmap_app. apply elem_of_app. right.
    simpl. by left.
  - intros n Hn%includes_spec. apply includes_spec.
    rewrite fmap_app. apply elem_of_app. left.
    change (VNum n) with (json_element (VNum n)). by apply list_elem_of_fmap_2.
Qed.

Section Steps.
Context {S : Type}.
Variable serve : S → request → S * reply.
Variable i : string.
Variable storage : option (list value).

Abbreviation step := (Async.step serve dispatch).
Abbreviation steps := (Async.steps serve dispatch).
Abbreviation grown := (Detail.grown (S:=S) i storage).
Abbreviation once := (Detail.once (S:=S) i storage).
Abbreviation settled := (Detail.settled (S:=S) i).

Lemma start_done (σ : sys state S) : start (Ret tt) σ = σ.
Proof. destruct σ. unfold start. simpl. by rewrite app_nil_r. Qed.

Lemma click_guarded (σ : sys state S) :
  loading (world σ) = true ∨ isLiking (world σ) = true ∨ liked (world σ) = true →
  step σ (User ClickLike) = σ.
Proof.
  intros Hg. simpl. unfold like_button_enabled.
  destruct Hg as [-> | [-> | ->]]; simpl;
    rewrite ?andb_false_r, ?orb_true_r, ?andb_false_r; simpl;
    apply start_done.
Qed.

(** Steps that leave the persisted set and the acknowledged PUTs alone. *)
Lemma grown_same (σ σ' : sys state S) :
  liked_recipes (world σ') = liked_recipes (world σ) →
  acks (history σ') = acks (history σ) →
  grown σ → grown σ'.
Proof.
  intros Hst Ha Hg n. unfold likedRecipes. rewrite Hst, Ha. apply Hg.
Qed.

Lemma once_mount (s : S) : once (mount i storage s).
Proof.
  unfold mount, start. cbn [world console].
  destruct (loadRecipe_starts (initial i storage) []) as (t & -> & Ht).
  split; [done|]. split; [intros n; split; [done|by left]|].
  left. exists t. done.
Qed.

Lemma once_user (σ : sys state S) a : once σ → once (step σ (User a)).
Proof.
  intros (Hid & Hgrown & Hcase). destruct a.
  destruct Hcase as [(t & Hp & Ht & Hl & Hk & Ha)
                    |[(Hp & Hl & Hk & Ha)
                    |[(t & Hp & Ht & Hl & Hk & Ha)
                     |(Hp & Hl & Hk & Hd & Ha & Hin)]]].
  - rewrite click_guarded by auto. split_and!; [done..|]. left. by exists t.
  - simpl. destruct (like_button_enabled (world σ)) eqn:Hen.
    + unfold like_button_enabled in Hen.
      apply andb_true_iff in Hen as [_ Hen].
      apply negb_true_iff, orb_false_iff in Hen as [_ Hd].
      destruct (handleLike_starts (world σ) (console σ) Hk Hd) as (t & Hadv & Ht).
      unfold start. rewrite Hadv. unfold once. cbn [world pending history].
      rewrite Hp, Hid in *. split_and!; [done|by apply (grown_same σ)|].
      right; right; left. exists t. auto.
    + rewrite start_done. split_and!; [done..|]. right; left. done.
  - rewrite click_guarded by auto. split_and!; [done..|]. right; right; left. by exists t.
  - rewrite click_guarded by auto. split_and!; [done..|]. right; right; right. done.
Qed.

(** A function suspended on a single call has no other call to answer. *)
Lemma other_none (σ : sys state S) j j' :
  (∀ t, t ∈ pending σ → also t = []) → deliver_other serve j j' σ = σ.
Proof.
  intros Hno. unfold deliver_other.
  destruct (pending σ !! j) as [t|] eqn:Hj; [|done].
  by rewrite (Hno t (list_elem_of_lookup_2 _ _ _ Hj)).
Qed.

Lemma once_single (σ : sys state S) : once σ → ∀ t, t ∈ pending σ → also t = [].
Proof.
  intros (_ & _ & [(t & -> & (_ & ? & _) & _)
                  |[(-> & _)
                  |[(t & -> & [(_ & ? & _)|(_ & ? & _)] & _)
                   |(-> & _)]]]) t' Ht';
    try (by apply elem_of_nil in Ht');
    by apply list_elem_of_singleton in Ht' as ->.
Qed.

Lemma once_deliver (σ : sys state S) j : once σ → once (step σ (Deliver j)).
Proof.
  intros (Hid & Hgrown & Hcase). simpl. unfold deliver, answer.
  destruct Hcase as [(t & Hp & Ht & Hl & Hk & Ha)
                    |[(Hp & Hl & Hk & Ha)
                    |[(t & Hp & Ht & Hl & Hk & Ha)
                     |(Hp & Hl & Hk & Hd & Ha & Hin)]]].
  - (* the recipe arrives *)
    rewrite Hp. destruct j as [|j]; simpl;
      [|split_and!; [done..|]; left; by exists t].
    destruct (serve (remote σ) (awaiting t)) as [s x].
    destruct Ht as (Hq & _ & Ht).
    destruct (Ht x (world σ) (console σ))
      as (w' & c' & -> & Hid' & Hl' & Hk' & Hst & _).
    unfold once. cbn [world pending history app].
    split_and!; [congruence| |].
    + apply (grown_same σ); cbn [world history]; [done| |done].
      by rewrite acks_snoc, Hq.
    + right; left. rewrite acks_snoc, Hq, Ha. split_and!; [done|done|congruence|done].
  - rewrite Hp. simpl. split_and!; [done..|]. right; left. done.
  - (* a step of the like *)
    rewrite Hp. destruct j as [|j]; simpl;
      [|split_and!; [done..|]; right; right; left; by exists t].
    destruct (serve (remote σ) (awaiting t)) as [s x].
    destruct Ht as [(Hq & _ & Ht)|((body & Hq) & _ & Ht)].
    + destruct (Ht x (world σ) (console σ)) as [(c' & ->)|(t' & -> & Ht')];
        unfold once; cbn [world pending history app];
        (split_and!;
         [exact Hid
         |apply (grown_same σ); cbn [world history]; [done| |done];
          by rewrite acks_snoc, Hq
         |]); rewrite acks_snoc, Hq, Ha.
      * right; left. done.
      * right; right; left. exists t'. auto.
    + specialize (Ht x (world σ) (console σ)).
      destruct x as [|d].
      * destruct Ht as (c' & ->).
        unfold once; cbn [world pending history app].
        split_and!;
          [exact Hid
          |apply (grown_same σ); cbn [world history]; [done| |done];
           by rewrite acks_snoc, Hq
          |].
        rewrite acks_snoc, Hq, Ha. right; left. done.
      * destruct Ht as (v & ->).
        unfold once; cbn [world pending history app].
        destruct (stored_after_like (likedRecipes (world σ)) (parseInt i))
          as [Hnew Hold].
        split_and!; [exact Hid| |].
        -- intros n. cbn [world history]. split.
           ++ intros Hn. apply Hold. by apply Hgrown.
           ++ intros Hn. rewrite acks_snoc, Hq, Ha.
              apply includes_spec in Hn. cbn in Hn.
              rewrite fmap_app in Hn. apply elem_of_app in Hn as [Hn|Hn].
              ** apply list_elem_of_fmap in Hn as (y & Hy & Hin).
                 assert (y = VNum n) as -> by (by destruct y).
                 apply includes_spec in Hin.
                 destruct (proj2 (Hgrown n) Hin) as [?|[Hone _]];
                   [by left|congruence].
              ** right. split; [done|].
                 apply list_elem_of_singleton in Hn.
                 by destruct (parseInt i).
        -- rewrite acks_snoc, Hq, Ha. right; right; right. done.
  - rewrite Hp. simpl. split_and!; [done..|]. right; right; right. done.
Qed.

Lemma once_steps (σ : sys state S) evs : once σ → once (steps σ evs).
Proof.
  revert σ. induction evs as [|ev evs IH]; intros σ Hinv; [done|].
  apply IH. destruct ev; [by apply once_user|by apply once_deliver|].
  simpl. rewrite other_none; [done|by apply once_single].
Qed.

Lemma settled_mount (s : S) :
  includes (default [] storage) (parseInt i) = true →
  settled (mount i storage s).
Proof.
  intros Hin. unfold mount, start. cbn [world console].
  destruct (loadRecipe_starts (initial i storage) []) as (t & -> & Ht).
  split_and!; [done|exact Hin|done|]. left. by exists t.
Qed.

Lemma settled_click (σ : sys state S) : settled σ → step σ (User ClickLike) = σ.
Proof.
  intros (Hid & Hin & Hk & [(t & Hp & Ht & Hl & Hr & Hh)|(Hp & Hl & Hr & Hh)]).
  - apply click_guarded. auto.
  - destruct Hr as [Hr|Hd]; [|apply click_guarded; auto].
    simpl. unfold like_button_enabled. rewrite Hr. simpl.
    rewrite andb_false_r. simpl. apply start_done.
Qed.

Lemma settled_step (σ : sys state S) ev : settled σ → settled (step σ ev).
Proof.
  intros Hinv. destruct ev as [[]|j|j j'].
  - by rewrite settled_click.
  - destruct Hinv as (Hid & Hin & Hk & [(t & Hp & Ht & Hl & Hr & Hh)|(Hp & Hl & Hr & Hh)]).
    + simpl. unfold deliver, answer. rewrite Hp.
      destruct j as [|j]; simpl;
        [|split_and!; [done..|]; left; by exists t].
      destruct (serve (remote σ) (awaiting t)) as [s x].
      destruct Ht as (Hq & _ & Ht).
      destruct (Ht x (world σ) (console σ))
        as (w' & c' & -> & Hid' & Hl' & Hk' & Hst & Hliked).
      unfold settled. cbn [world pending history app].
      split_and!; [congruence| |congruence|].
      * unfold likedRecipes in *. by rewrite Hst.
      * right. split_and!; [done|done| |].
        -- destruct Hliked as [[-> _]| ->]; [by left|right; exact Hin].
        -- exists x. by rewrite Hh, Hq.
    + simpl. unfold deliver, answer. rewrite Hp. simpl.
      split_and!; [done..|]. right. done.
  - simpl. rewrite other_none; [done|].
    destruct Hinv as (_ & _ & _ & [(t & -> & (_ & ? & _) & _)|(-> & _)]).
    + by intros t' ->%list_elem_of_singleton.
    + by intros t' ?%elem_of_nil.
Qed.

Lemma settled_steps (σ : sys state S) evs : settled σ → settled (steps σ evs).
Proof.
  revert σ. induction evs as [|ev evs IH]; intros σ Hinv; [done|].
  apply IH. by apply settled_step.
Qed.

End Steps.

Section OneView.
Context {S : Type}.
Variable serve : S → request → S * reply.

Abbreviation step := (Async.step serve dispatch).
Abbreviation steps := (Async.steps serve dispatch).


End OneView.



Example like_twice :
  let σ := Async.steps Store.serve dispatch (mount "2" None one_row)
             [Deliver 0; User ClickLike; User ClickLike; Deliver 0;
              User ClickLike; Deliver 0; User ClickLike; Deliver 0] in
  (fst <$> history σ)
    = [GET (Receita "2"); GET (Receita "2");
       PUT (Receita "2") {["likes" := VNum 6]}] ∧
  likes (world σ) = VNum 6 ∧ liked (world σ) = true ∧
  liked_recipes (world σ) = Some [VNum 2] ∧
  (get "likes" <$> Store.rows (remote σ) !! "2") = Some (VNum 6).
Proof. vm_compute. split_and!; reflexivity. Qed.

End DetailFacts.

(** ** More on the adapter's calls *)

Module AdapterFacts.
Import Fixtures ShapeFacts.

Section AnyServer.
Context {W S : Type}.
Variable serve : S → request → S * reply.

(** [getRecipes] hands over the rows of the answer in the server's order,
    one UI record per row, each with its nine fields and with no text
    field or like count undefined or null; an answer without a list of
    rows gives the empty list. *)
Theorem getRecipes_in_order (s s1 : S) (w : W) (d : data) :
  serve s (GET Receitas) = (s1, Resolved d) →
  ∃ result,
    exec serve getRecipes s w
      = Run (Returned result) s1 w [] [(GET Receitas, Resolved d)] ∧
    length result = length (default [] (receitas d)) ∧
    (∀ k, result !! k = normalizeRecipe <$> default [] (receitas d) !! k) ∧
    (∀ r u, r ∈ result → u ∈ ui_fields → u ≠ "id" →
            get u r ≠ VUndef ∧ get u r ≠ VNull) ∧
    (receitas d = None → result = []).
Proof.
  intros Hget. exists (normalizeRecipe <$> default [] (receitas d)).
  split_and!.
  - unfold exec, getRecipes. simpl. by rewrite Hget.
  - by rewrite length_fmap.
  - intros k. by rewrite list_lookup_fmap.
  - intros r u (row & -> & _)%list_elem_of_fmap Hu Hid.
    by apply (normalize_defaults row).
  - by intros ->.
Qed.

(** [getRecipeById] makes one GET for the identifier and returns null
    exactly when the answer carries no record; otherwise it returns the
    record in UI shape. *)
Theorem getRecipeById_absent_or_normalized (id : value) (s s1 : S) (w : W) (d : data) :
  serve s (GET (Receita (to_string id))) = (s1, Resolved d) →
  exec serve (getRecipeById id) s w
    = Run (Returned (normalizeRecipe <$> receita d)) s1 w []
        [(GET (Receita (to_string id)), Resolved d)] ∧
  (out (exec serve (getRecipeById id) s w) = Returned None ↔ receita d = None).
Proof.
  intros Hget.
  assert (Hrun : exec serve (getRecipeById id) s w
            = Run (Returned (normalizeRecipe <$> receita d)) s1 w []
                [(GET (Receita (to_string id)), Resolved d)]).
  { unfold exec, getRecipeById. simpl. rewrite Hget. simpl.
    by destruct (receita d). }
  split; [done|]. rewrite Hrun. simpl.
  destruct (receita d); simpl; split; congruence.
Qed.

(** When the server rejects whatever it is asked, every call of the
    adapter, [getCategoryById] included, makes exactly one request,
    writes exactly one console message and throws the rejection on:
    none retries, none returns a value, none touches the component
    state. *)
Theorem rejection_is_rethrown (c : call) (s : S) (w : W) :
  (∀ s' q, (serve s' q).2 = Rejected) →
  out (exec serve (perform c) s w) = Thrown AxiosError ∧
  length (sent (exec serve (perform c) s w)) = 1%nat ∧
  length (logs (exec serve (perform c) s w)) = 1%nat ∧
  wld (exec serve (perform c) s w) = w ∧
  (∀ q x, (q, x) ∈ sent (exec serve (perform c) s w) → x = Rejected).
Proof.
  intros Hdown.
  assert (Hq : ∀ q, ∃ s', serve s q = (s', Rejected)).
  { intros q. specialize (Hdown s q). destruct (serve s q) as [s' x].
    simpl in Hdown. subst. by eexists. }
  split_and!.
  1-4: destruct c; unfold exec; simpl;
    match goal with
    | |- context [serve _ ?q] => destruct (Hq q) as [s' ->]
    end; reflexivity.
  intros q x. destruct c; unfold exec; simpl;
    match goal with
    | |- context [serve _ ?q] => destruct (Hq q) as [s' ->]
    end; simpl; by intros [= _ ->]%list_elem_of_singleton.
Qed.

(** An answer that resolves without a record makes [createRecipe] and
    [updateRecipe] throw a TypeError after their console message, where
    [getRecipeById] and [likeRecipe] return null. *)
Theorem answer_without_record (id : value) (form : obj) (s : S) (w : W) :
  (∀ s' q, (serve s' q).2 = Resolved (Data None None None)) →
  out (exec serve (createRecipe form) s w) = Thrown TypeError ∧
  logs (exec serve (createRecipe form) s w) = ["Erro ao criar receita:"] ∧
  out (exec serve (updateRecipe id form) s w) = Thrown TypeError ∧
  logs (exec serve (updateRecipe id form) s w) = ["Erro ao atualizar receita:"] ∧
  out (exec serve (getRecipeById id) s w) = Returned None ∧
  exec serve (likeRecipe id) s w
    = Run (Returned VNull) (serve s (GET (Receita (to_string id)))).1 w []
        [(GET (Receita (to_string id)), Resolved (Data None None None))].
Proof.
  intros Hempty.
  assert (Hq : ∀ q, ∃ s', serve s q = (s', Resolved (Data None None None))).
  { intros q. specialize (Hempty s q). destruct (serve s q) as [s' x].
    simpl in Hempty. subst. by eexists. }
  split_and!; unfold exec; simpl;
    match goal with
    | |- context [serve _ ?q] => destruct (Hq q) as [s' ->]
    end; reflexivity.
Qed.

(** [getCategoryById] returns the first category of the answer whose id
    is strictly equal to the number [parseInt] reads in the identifier,
    and null when there is none; an identifier that is not a number
    never finds one, whatever the categories hold. *)
Theorem getCategoryById_finds_first (id : value) (s s1 : S) (w : W) (d : data) :
  serve s (GET Categorias) = (s1, Resolved d) →
  let wanted := parseInt (to_string id) in
  let found := List.find (λ c, strict_eq (get "id" c) wanted)
                 (default [] (categorias d)) in
  exec serve (getCategoryById id) s w
    = Run (Returned found) s1 w [] [(GET Categorias, Resolved d)] ∧
  (∀ c, found = Some c →
        c ∈ default [] (categorias d) ∧ get "id" c = wanted ∧ wanted ≠ VNaN) ∧
  (found = None →
   ∀ c, c ∈ default [] (categorias d) → strict_eq (get "id" c) wanted = false) ∧
  (wanted = VNaN → found = None).
Proof.
  intros Hget wanted found. split_and!.
  - unfold exec, getCategoryById. simpl. by rewrite Hget.
  - intros c Hc. apply find_some in Hc as [Hin Heq].
    split; [by apply list_elem_of_In|].
    unfold strict_eq in Heq.
    destruct (get "id" c), wanted; try done; by apply bool_decide_eq_true in Heq.
  - intros Hnone c Hin. apply (find_none _ _ Hnone). by apply list_elem_of_In.
  - intros Hnan. subst found. rewrite Hnan.
    induction (default [] (categorias d)) as [|c l IH]; [done|].
    simpl. by destruct (get "id" c).
Qed.

End AnyServer.

(** A server that is down, and one that answers with nothing. *)
Lemma rejection_is_rethrown_witness :
  out (exec (W:=unit) (S:=unit) (λ s _, (s, Rejected))
         (perform (LikeRecipe (VNum 2))) () ()) = Thrown AxiosError.
Proof.
  apply (rejection_is_rethrown (λ (s : unit) _, (s, Rejected))
           (LikeRecipe (VNum 2)) () ()).
  reflexivity.
Defined.

Lemma answer_without_record_witness :
  out (exec (W:=unit) (S:=unit) (λ s _, (s, Resolved (Data None None None)))
         (createRecipe (form_of "Bolo" "b.jpg" "Doces")) () ())
    = Thrown TypeError.
Proof.
  apply (answer_without_record (λ (s : unit) _, (s, Resolved (Data None None None)))
           (VNum 2) (form_of "Bolo" "b.jpg" "Doces") () ()).
  reflexivity.
Defined.

Lemma getRecipes_in_order_witness :
  ∃ result,
    out (exec (W:=unit) Store.serve getRecipes one_row ()) = Returned result ∧
    length result = 1%nat.
Proof.
  destruct (getRecipes_in_order Store.serve one_row one_row ()
              (Data None (Some [caldo_verde]) None))
    as (result & Hrun & Hlen & _); [vm_compute; reflexivity|].
  exists result. rewrite Hrun. split; [reflexivity|exact Hlen].
Defined.

Lemma getRecipeById_absent_or_normalized_witness :
  out (exec (W:=unit) Store.serve (getRecipeById (VStr "9")) one_row ())
    = Returned None.
Proof.
  apply (getRecipeById_absent_or_normalized Store.serve (VStr "9")
           one_row one_row () Store.nothing); reflexivity.
Defined.

Lemma getCategoryById_finds_first_witness :
  out (exec (W:=unit) Store.serve (getCategoryById (VStr "2")) with_categories ())
    = Returned (Some doces).
Proof.
  destruct (getCategoryById_finds_first Store.serve (VStr "2")
              with_categories with_categories ()
              (Data None None (Some [sopas; doces; doces_again])))
    as (Hrun & _); [reflexivity|].
  rewrite Hrun. vm_compute. reflexivity.
Defined.

End AdapterFacts.

(** ** The session *)

Module SessionFacts.
Import Session.

(** [login] succeeds exactly on the pair admin/admin.  On success the
    token it returns is the one it stores and the client is
    authenticated afterwards; on failure the storage is left as it was
    and the error message is not empty. *)
Theorem login_iff_admin (now : Z) (username password : string) (st : storage) :
  (username = "admin" ∧ password = "admin" →
   ∃ token,
     login now username password st = (Success token, Storage (Some token)) ∧
     token = "fake_jwt_token_" +:+ pretty now ∧
     isAuthenticated (login now username password st).2 = true) ∧
  (¬ (username = "admin" ∧ password = "admin") →
   login now username password st = (Failure "Credenciais inválidas", st) ∧
   isAuthenticated (login now username password st).2 = isAuthenticated st).
Proof.
  unfold login. split.
  - intros [-> ->]. simpl. eexists. split_and!; reflexivity.
  - intros Hne.
    destruct (String.eqb_spec username "admin") as [->|?];
      destruct (String.eqb_spec password "admin") as [->|?]; simpl; tauto.
Qed.

Lemma login_iff_admin_witness :
  login 1700000000000 "admin" "admin" (Storage None)
    = (Success "fake_jwt_token_1700000000000",
       Storage (Some "fake_jwt_token_1700000000000")) ∧
  login 1700000000000 "admin" "wrong" (Storage None)
    = (Failure "Credenciais inválidas", Storage None).
Proof.
  split.
  - destruct (proj1 (login_iff_admin 1700000000000 "admin" "admin" (Storage None)))
      as (token & -> & -> & _); [done|]. vm_compute. reflexivity.
  - apply (proj2 (login_iff_admin 1700000000000 "admin" "wrong" (Storage None))).
    intros [_ [=]].
Defined.

(** After [logout] nobody is authenticated and the admin route redirects
    to the login page, whatever was stored; after a successful [login]
    the admin route renders the dashboard; a failed [login] after a
    [logout] does not open it. *)
Theorem session_round_trip (now : Z) (username password : string) (st : storage) :
  isAuthenticated (logout st) = false ∧
  PrivateRoute (logout st) = Navigate "/login" ∧
  PrivateRoute (login now "admin" "admin" st).2 = Children ∧
  PrivateRoute (logout (login now "admin" "admin" st).2) = Navigate "/login" ∧
  (PrivateRoute (login now username password (logout st)).2 = Children ↔
   username = "admin" ∧ password = "admin").
Proof.
  split_and!; try reflexivity.
  unfold login, PrivateRoute, isAuthenticated.
  destruct (String.eqb_spec username "admin") as [->|?];
    destruct (String.eqb_spec password "admin") as [->|?]; simpl;
    split; try done; try tauto; by intros [??].
Qed.

(** The login page.  Submitting clears the old error and shows the
    loading state.  When [login] answers, loading ends in every case;
    with the pair admin/admin the page navigates to the dashboard, which
    the admin route then renders, and no error is set; with any other
    pair it stays, shows the message of the failure and stores no token. *)
Theorem login_page_submit (now : Z) (w0 w : page) (st : storage) :
  error (submitting w0) = "" ∧ loading (submitting w0) = true ∧
  loading (submitted now w0 w st).1.1 = false ∧
  (username w0 = "admin" ∧ password w0 = "admin" →
   (submitted now w0 w st).2 = Some "/admin" ∧
   error (submitted now w0 w st).1.1 = error w ∧
   PrivateRoute (submitted now w0 w st).1.2 = Children) ∧
  (¬ (username w0 = "admin" ∧ password w0 = "admin") →
   (submitted now w0 w st).2 = None ∧
   error (submitted now w0 w st).1.1 = "Credenciais inválidas" ∧
   (submitted now w0 w st).1.2 = st).
Proof.
  unfold submitted, login. split_and!; try reflexivity.
  - by repeat case_match.
  - intros [-> ->]. simpl. done.
  - intros Hne.
    destruct (String.eqb_spec (username w0) "admin") as [?|?];
      destruct (String.eqb_spec (password w0) "admin") as [?|?]; simpl; tauto.
Qed.

Lemma login_page_submit_witness :
  submitted 5 (Page "admin" "admin" "" false) (Page "admin" "admin" "" true)
    (Storage None)
    = (Page "admin" "admin" "" false, Storage (Some "fake_jwt_token_5"),
       Some "/admin") ∧
  error (submitted 5 (Page "admin" "x" "" false) (Page "admin" "x" "" true)
           (Storage None)).1.1 = "Credenciais inválidas".
Proof.
  split.
  - vm_compute. reflexivity.
  - destruct (login_page_submit 5 (Page "admin" "x" "" false)
                (Page "admin" "x" "" true) (Storage None))
      as (_ & _ & _ & _ & Hfail).
    apply Hfail. intros [_ [=]].
Defined.

(** Typing in either input of the login page clears the error shown and
    changes nothing but the field typed in. *)
Theorem login_page_typing_clears_error (name : field) (v : string) (w : page) :
  error (handleChange name v w) = "" ∧
  loading (handleChange name v w) = loading w ∧
  match name with
  | Username =>
      username (handleChange name v w) = v ∧
      password (handleChange name v w) = password w
  | Password =>
      password (handleChange name v w) = v ∧
      username (handleChange name v w) = username w
  end.
Proof. by destruct name. Qed.

End SessionFacts.

(** ** Home: pages and the page cursor *)

Module PageFacts.
Import Home HomeView HomeFacts Fixtures ShapeFacts.

Lemma chunks_cover {A} (n : nat) (l : list A) :
  (length l ≤ 6 * n)%nat →
  concat ((λ k, take 6 (drop (6 * k) l)) <$> seq 0 n) = l.
Proof.
  revert l. induction n as [|n IH]; intros l Hlen.
  - destruct l; [done|simpl in Hlen; lia].
  - cbn [seq fmap list_fmap concat]. rewrite <- fmap_S_seq, <- list_fmap_compose.
    rewrite Nat.mul_0_r, drop_0.
    rewrite <- (take_drop 6 l) at 2. f_equal.
    rewrite <- (IH (drop 6 l)) by (rewrite length_drop; lia).
    f_equal. apply list_fmap_ext. intros _ k _. simpl.
    rewrite drop_drop. do 2 f_equal. lia.
Qed.

Lemma page_is_chunk (filtered : list obj) (p : Z) :
  1 ≤ p →
  paginatedRecipes filtered p = take 6 (drop (6 * Z.to_nat (p - 1)) filtered).
Proof.
  intros Hp. unfold paginatedRecipes, startIndex.
  rewrite slice_page by (unfold recipesPerPage; lia).
  do 2 f_equal. unfold recipesPerPage. lia.
Qed.

Lemma totalPages_bounds (filtered : list obj) :
  6 * (totalPages filtered - 1) < Z.of_nat (length filtered) ≤ 6 * totalPages filtered.
Proof. apply (ceil_div_bounds (Z.of_nat (length filtered))). Qed.

(** The pages 1 .. totalPages, put one after the other, are the filtered
    list: every recipe the filter keeps is on exactly one page, in order.
    Each of those pages shows something, and any later page is empty. *)
Theorem pages_partition (filtered : list obj) :
  concat ((λ p, paginatedRecipes filtered (Z.of_nat p))
            <$> seq 1 (Z.to_nat (totalPages filtered))) = filtered ∧
  (∀ p, 1 ≤ p ≤ totalPages filtered → paginatedRecipes filtered p ≠ []) ∧
  (∀ p, totalPages filtered < p → 1 ≤ p → paginatedRecipes filtered p = []).
Proof.
  pose proof (totalPages_bounds filtered) as [Hlo Hhi].
  split_and!.
  - rewrite <- fmap_S_seq, <- list_fmap_compose.
    rewrite <- (chunks_cover (Z.to_nat (totalPages filtered)) filtered) at 2 by lia.
    f_equal. apply list_fmap_ext. intros _ k _. simpl.
    rewrite page_is_chunk by lia. do 3 f_equal. lia.
  - intros p Hp. rewrite page_is_chunk by lia.
    intros Hnil. apply (f_equal length) in Hnil.
    rewrite length_take, length_drop in Hnil. cbn [length] in Hnil. lia.
  - intros p Hp H1. rewrite page_is_chunk by lia.
    rewrite drop_ge by lia. done.
Qed.

Lemma pages_partition_witness :
  paginatedRecipes (normalizeRecipe <$> seven) 2 ≠ [] ∧
  paginatedRecipes (normalizeRecipe <$> seven) 3 = [].
Proof.
  destruct (pages_partition (normalizeRecipe <$> seven)) as (_ & Hin & Hout).
  split; [apply Hin|apply Hout]; vm_compute; try split; congruence.
Defined.

Section View.
Context {S : Type}.
Variable serve : S → request → S * reply.
Variable lower : string → string.

Abbreviation step := (Async.step serve (HomeView.dispatch lower)).
Abbreviation steps := (Async.steps serve (HomeView.dispatch lower)).

(** The filter fails exactly when some title is not text, and then
    whatever the search text is; a row whose title cell holds a number
    other than 0 passes through [normalizeRecipe] as that number and so
    breaks the list. *)
Theorem non_text_title_breaks_list (recipes : list obj) (searchTerm : string) :
  (filteredRecipes lower recipes searchTerm = None ↔
   ∃ r, r ∈ recipes ∧ ¬ ∃ t, get "titulo" r = VStr t) ∧
  (∀ rows row n, row ∈ rows → get "titulo" row = VNum n → n ≠ 0 →
     filteredRecipes lower (normalizeRecipe <$> rows) searchTerm = None).
Proof.
  assert (Hiff : ∀ l, filteredRecipes lower l searchTerm = None ↔
            ∃ r, r ∈ l ∧ ¬ ∃ t, get "titulo" r = VStr t).
  { induction l as [|r l IH].
    - split; [done|]. by intros (r & ?%elem_of_nil & _).
    - cbn [filteredRecipes]. unfold matches at 1.
      destruct (get "titulo" r) as [| |b|n| |t] eqn:Ht; simpl;
        try (split; [intros _; exists r; split;
                       [by left|rewrite Ht; by intros [? [=]]]|done]).
      destruct (filteredRecipes lower l searchTerm) as [f|]; simpl.
      + split; [done|]. intros (r' & [->|Hin]%elem_of_cons & Hno).
        * destruct Hno. eauto.
        * destruct IH as [_ IH]. discriminate IH. eauto.
      + split; [|done]. intros _.
        destruct (proj1 IH eq_refl) as (r' & Hin & Hno).
        exists r'. split; [by right|done]. }
  split; [apply Hiff|].
  intros rows row n Hin Ht Hn. apply Hiff.
  exists (normalizeRecipe row). split; [by apply list_elem_of_fmap_2|].
  intros [t Hstr]. revert Hstr. read_fields. rewrite Ht.
  unfold or. simpl. destruct (Z.eqb_spec n 0); [done|]. simpl. done.
Qed.

Lemma loadRecipes_starts w c :
  ∃ t, advance loadRecipes w c = (setLoading true w, c, [t]) ∧
       loading_recipes t.
Proof.
  eexists. split; [reflexivity|]. split; [reflexivity|]. split; [reflexivity|].
  intros [|d] w' c'; simpl; by eexists _, _.
Qed.

Lemma start_set (f : state → state) (σ : sys state S) :
  start (set f) σ
    = Sys (f (world σ)) (console σ) (pending σ) (remote σ) (history σ).
Proof. unfold start. simpl. by rewrite app_nil_r. Qed.

Lemma start_skip (σ : sys state S) : start (Ret tt) σ = σ.
Proof. destruct σ. unfold start. simpl. by rewrite app_nil_r. Qed.

Lemma setSearchTerm_page v w :
  setSearchTerm v w = w ∨
  (currentPage (setSearchTerm v w) = 1 ∧
   loading (setSearchTerm v w) = loading w).
Proof. unfold setSearchTerm. destruct (String.eqb v (searchTerm w)); auto. Qed.

Lemma in_range_first w : currentPage w = 1 → in_range lower w.
Proof. intros Hp. split; rewrite Hp; intros; lia. Qed.

Lemma in_range_moved w p :
  in_range lower w → 1 ≤ p →
  (∀ filtered,
     filteredRecipes lower (recipes w) (searchTerm w) = Some filtered →
     p ≤ Z.max 1 (totalPages filtered)) →
  in_range lower (setCurrentPage p w).
Proof. intros _ Hp Hle. split; [done|]. exact Hle. Qed.

Lemma pagination_pages w pages :
  pagination lower w = Some pages →
  loading w = false ∧ 1 < pages ∧
  ∃ filtered,
    filteredRecipes lower (recipes w) (searchTerm w) = Some filtered ∧
    pages = totalPages filtered.
Proof.
  unfold pagination. destruct (loading w); [done|].
  destruct (filteredRecipes lower (recipes w) (searchTerm w)) as [f|]; [|done].
  case_bool_decide; [done|].
  destruct (Z.ltb_spec 1 (totalPages f)); [|done].
  intros [= <-]. eauto.
Qed.

Lemma paged_mount (s : S) : paged lower (mount s).
Proof.
  unfold mount, start. cbn [world console].
  destruct (loadRecipes_starts initial []) as (t & -> & Ht).
  left. by exists t.
Qed.

Lemma paged_user (σ : sys state S) a : paged lower σ → paged lower (step σ (User a)).
Proof.
  intros Hinv.
  assert (Hset : ∀ f,
            (loading (world σ) = true → currentPage (world σ) = 1 →
             loading (f (world σ)) = true ∧ currentPage (f (world σ)) = 1) →
            (loading (world σ) = false → in_range lower (world σ) →
             loading (f (world σ)) = false ∧ in_range lower (f (world σ))) →
            paged lower (start (set f) σ)).
  { intros f Hload Hidle. rewrite start_set.
    destruct Hinv as [(t & Hp & Ht & Hl & Hc)|(Hp & Hl & Hr)].
    - left. exists t. cbn [pending world]. destruct (Hload Hl Hc). done.
    - right. cbn [pending world]. destruct (Hidle Hl Hr). done. }
  assert (Hsearch : ∀ v, paged lower (start (set (setSearchTerm v)) σ)).
  { intros v. apply Hset.
    - intros Hl Hc. destruct (setSearchTerm_page v (world σ)) as [->|[-> ->]]; done.
    - intros Hl Hr. destruct (setSearchTerm_page v (world σ)) as [->|[Hc ->]];
        [done|]. split; [done|]. by apply in_range_first. }
  simpl. destruct a as [v| | |p|]; simpl.
  - apply Hsearch.
  - destruct (negb _); [apply Hsearch|by rewrite start_skip].
  - destruct (pagination lower (world σ)) as [pages|] eqn:Hpg;
      [|by rewrite start_skip].
    apply pagination_pages in Hpg as (Hl & Hpages & f & Hf & ->).
    destruct (Z.eqb_spec (currentPage (world σ)) 1); [by rewrite start_skip|].
    apply Hset; [congruence|]. intros _ Hr. split; [done|].
    destruct Hr as [H1 Hle].
    apply in_range_moved; [done|lia|]. intros f' Hf'. specialize (Hle f' Hf'). lia.
  - destruct (pagination lower (world σ)) as [pages|] eqn:Hpg;
      [|by rewrite start_skip].
    apply pagination_pages in Hpg as (Hl & Hpages & f & Hf & ->).
    destruct (Z.leb_spec 1 p); simpl; [|by rewrite start_skip].
    destruct (Z.leb_spec p (totalPages f)); simpl; [|by rewrite start_skip].
    apply Hset; [congruence|]. intros _ Hr. split; [done|].
    apply in_range_moved; [done|lia|]. intros f' Hf'.
    cbn [recipes searchTerm] in *. assert (f' = f) as -> by congruence. lia.
  - destruct (pagination lower (world σ)) as [pages|] eqn:Hpg;
      [|by rewrite start_skip].
    apply pagination_pages in Hpg as (Hl & Hpages & f & Hf & ->).
    destruct (Z.eqb_spec (currentPage (world σ)) (totalPages f));
      [by rewrite start_skip|].
    apply Hset; [congruence|]. intros _ Hr. split; [done|].
    destruct Hr as [H1 Hle].
    apply in_range_moved; [done|lia|]. intros f' Hf'.
    assert (f' = f) as -> by congruence. specialize (Hle f Hf). lia.
Qed.

Lemma paged_deliver (σ : sys state S) j : paged lower σ → paged lower (step σ (Deliver j)).
Proof.
  intros Hinv. simpl. unfold deliver, answer.
  destruct Hinv as [(t & Hp & Ht & Hl & Hc)|(Hp & Hl & Hr)].
  - rewrite Hp. destruct j as [|j]; simpl; [|left; by exists t].
    destruct (serve (remote σ) (awaiting t)) as [s x].
    destruct Ht as (_ & _ & Ht).
    destruct (Ht x (world σ) (console σ)) as (l & c' & ->).
    right. cbn [pending world app]. split_and!; [done|done|].
    by apply in_range_first.
  - rewrite Hp. simpl. by right.
Qed.

Lemma paged_steps (σ : sys state S) evs : paged lower σ → paged lower (steps σ evs).
Proof.
  revert σ. induction evs as [|ev evs IH]; intros σ Hinv; [done|].
  apply IH. destruct ev; [by apply paged_user|by apply paged_deliver|].
  simpl. replace (deliver_other serve i j σ) with σ; [done|].
  unfold deliver_other.
  destruct Hinv as [(t & Hp & (_ & Hno & _) & _)|(Hp & _)]; rewrite Hp.
  - destruct i as [|i]; simpl; [by rewrite Hno|done].
  - done.
Qed.

(** After every event, whatever is typed and clicked and whenever the
    recipes arrive, the page cursor is between 1 and the number of pages
    of what the filter keeps; so as soon as the filter keeps a recipe,
    the page on screen shows at least one.  (The effect that resets the
    page is taken together with the change of text that triggers it.) *)
Theorem page_stays_in_range (s : S) evs :
  let w := world (steps (mount s) evs) in
  1 ≤ currentPage w ∧
  ∀ filtered,
    filteredRecipes lower (recipes w) (searchTerm w) = Some filtered →
    currentPage w ≤ Z.max 1 (totalPages filtered) ∧
    (filtered ≠ [] → paginatedRecipes filtered (currentPage w) ≠ []).
Proof.
  intros w.
  assert (Hr : in_range lower w).
  { destruct (paged_steps (mount s) evs (paged_mount s))
      as [(t & _ & _ & _ & Hc)|(_ & _ & Hr)]; [by apply in_range_first|done]. }
  destruct Hr as [H1 Hle]. split; [done|].
  intros filtered Hf. specialize (Hle filtered Hf). split; [done|].
  intros Hne. apply pages_partition.
  pose proof (totalPages_bounds filtered).
  destruct filtered; [done|]. simpl length in *. lia.
Qed.

End View.

Lemma page_stays_in_range_witness :
  currentPage (world (Async.steps (S:=unit) (λ s _, (s, Rejected))
                        (HomeView.dispatch ascii_lower) (mount ())
                        [User (Type_ "a"); Deliver 0; User Next]))
    ≤ Z.max 1 (totalPages []).
Proof.
  apply (page_stays_in_range (S:=unit) (λ s _, (s, Rejected)) ascii_lower ()
           [User (Type_ "a"); Deliver 0; User Next]).
  reflexivity.
Defined.

Lemma non_text_title_breaks_list_witness :
  filteredRecipes ascii_lower
    (normalizeRecipe <$> [caldo_verde; <["titulo" := VNum 1910]> caldo_verde]) "caldo"
    = None.
Proof.
  apply (proj2 (non_text_title_breaks_list ascii_lower [] "caldo")
           _ (<["titulo" := VNum 1910]> caldo_verde) 1910).
  - in_list.
  - reflexivity.
  - done.
Defined.

(** Typing a new search text on any page brings the first page back;
    the text already in the box changes nothing. *)
Theorem search_resets_page (v : string) (w : state) :
  (v ≠ searchTerm w →
   currentPage (setSearchTerm v w) = 1 ∧ searchTerm (setSearchTerm v w) = v ∧
   recipes (setSearchTerm v w) = recipes w) ∧
  (v = searchTerm w → setSearchTerm v w = w).
Proof.
  unfold setSearchTerm.
  destruct (String.eqb_spec v (searchTerm w)); split; try done.
Qed.

Example scenario_a :
  let σ := Async.steps Store.serve (HomeView.dispatch ascii_lower)
             (mount seven_rows)
             [Deliver 0; User (GoTo 2); User Next; User (Type_ "r7")] in
  currentPage (world σ) = 1 ∧
  (titles <$> (filteredRecipes ascii_lower (recipes (world σ)) (searchTerm (world σ))))
    = Some [VStr "R7"].
Proof. vm_compute. split; reflexivity. Qed.

End PageFacts.

(** ** RecipeDetail: what a load and a like leave behind *)

Module LikeFacts.
Import Detail DetailFacts Fixtures ShapeFacts.

Section AnyServer.
Context {S : Type}.
Variable serve : S → request → S * reply.

Abbreviation step := (Async.step serve dispatch).

(** When the answer to the read of [loadRecipe] arrives the view stops
    loading in every case and the persisted set is as it was.  With a
    record in the answer the view holds it in UI shape, shows its like
    count (0 when it has none) and is liked exactly when the parsed id
    is in the persisted set.  With a rejection or an answer without
    record the view holds no recipe (the not-found page), and only the
    rejection is written to the console, twice. *)
Theorem loadRecipe_outcomes (i : string) (storage : option (list value)) (s : S) :
  let σ := step (mount i storage s) (Deliver 0) in
  loading (world σ) = false ∧ pending σ = [] ∧
  liked_recipes (world σ) = storage ∧
  history σ = [(GET (Receita i), (serve s (GET (Receita i))).2)] ∧
  match (serve s (GET (Receita i))).2 with
  | Resolved d =>
      console σ = [] ∧
      match receita d with
      | Some r =>
          recipe (world σ) = Some (normalizeRecipe r) ∧
          likes (world σ) = or (get "likes" r) (VNum 0) ∧
          liked (world σ) = includes (default [] storage) (parseInt i)
      | None =>
          recipe (world σ) = None ∧ likes (world σ) = VNum 0 ∧
          liked (world σ) = false
      end
  | Rejected =>
      recipe (world σ) = None ∧ likes (world σ) = VNum 0 ∧
      liked (world σ) = false ∧
      console σ = ["Erro ao carregar receita:"; "Erro ao carregar receita:"]
  end.
Proof.
  intros σ. subst σ. unfold mount, start. simpl. unfold deliver, answer. simpl.
  destruct (serve s (GET (Receita i))) as [s1 [|d]]; simpl.
  - split_and!; reflexivity.
  - destruct (receita d) as [r|]; simpl; split_and!; reflexivity.
Qed.

Lemma isLiking_restored w :
  isLiking w = false → setIsLiking false (setIsLiking true w) = w.
Proof. destruct w. simpl. by intros ->. Qed.

(** The whole life of one like, from a view at rest whose button is
    enabled. *)
Lemma like_life (σ : sys state S) :
  pending σ = [] →
  like_button_enabled (world σ) = true →
  let w := world σ in
  let read := GET (Receita (id w)) in
  let σ0 := step σ (User ClickLike) in
  let σ1 := step σ0 (Deliver 0) in
  world σ0 = setIsLiking true w ∧ (awaiting <$> pending σ0) = [read] ∧
  history σ0 = history σ ∧
  match (serve (remote σ) read).2 with
  | Rejected =>
      world σ1 = w ∧ pending σ1 = [] ∧ history σ1 = history σ ++ [(read, Rejected)]
  | Resolved d =>
      match receita d with
      | None =>
          world σ1 = w ∧ pending σ1 = [] ∧ console σ1 = console σ ∧
          history σ1 = history σ ++ [(read, Resolved d)]
      | Some r =>
          let newLikes := add (or (get "likes" r) (VNum 0)) (VNum 1) in
          let update := PUT (Receita (id w)) {["likes" := newLikes]} in
          let σ2 := step σ1 (Deliver 0) in
          world σ1 = setIsLiking true w ∧ (awaiting <$> pending σ1) = [update] ∧
          pending σ2 = [] ∧
          history σ2 = history σ ++ [(read, Resolved d);
                                     (update, (serve (remote σ1) update).2)] ∧
          match (serve (remote σ1) update).2 with
          | Rejected => world σ2 = w
          | Resolved _ =>
              world σ2 = setItem (likedRecipes w ++ [parseInt (id w)])
                           (setLiked true (setLikes newLikes w)) ∧
              console σ2 = console σ
          end
      end
  end.
Proof.
  intros Hp Hen w read σ0 σ1. subst w read σ0 σ1.
  destruct σ as [w c p s h]. cbn [world pending remote history console] in *.
  subst p.
  assert (Hk : isLiking w = false ∧ liked w = false).
  { unfold like_button_enabled in Hen.
    apply andb_true_iff in Hen as [_ Hen].
    by apply negb_true_iff, orb_false_iff in Hen. }
  destruct Hk as [Hk Hd].
  set (read := GET (Receita (id w))).
  assert (H0 : Async.step serve dispatch (Sys w c [] s h) (User ClickLike)
            = Sys (setIsLiking true w) c
                [Task read (resume (default (Task read (λ _, Ret tt))
                   (head (advance (handleLike w) w c).2)))] s h).
  { simpl. rewrite Hen. unfold handleLike. rewrite Hk, Hd. reflexivity. }
  rewrite H0. cbn [world pending history fmap list_fmap awaiting].
  split_and!; try reflexivity.
  unfold handleLike. rewrite Hk, Hd. simpl. unfold deliver, answer. simpl. fold read.
  destruct (serve s read) as [s1 [|d]]; simpl.
  - rewrite isLiking_restored by done. split_and!; reflexivity.
  - destruct (receita d) as [r|]; simpl.
    + split_and!; try reflexivity.
      * unfold deliver, answer. simpl.
        destruct (serve s1 _) as [s2 [|d2]]; simpl; [done|].
        rewrite add_one_not_null. done.
      * unfold deliver, answer. simpl.
        destruct (serve s1 _) as [s2 [|d2]]; simpl.
        -- by rewrite <- app_assoc.
        -- rewrite add_one_not_null. simpl. by rewrite <- app_assoc.
      * unfold deliver, answer. simpl.
        destruct (serve s1 _) as [s2 [|d2]]; simpl.
        -- by rewrite isLiking_restored.
        -- rewrite add_one_not_null. simpl. split; [|done].
           destruct w; simpl in *. by subst.
    + rewrite isLiking_restored by done. split_and!; reflexivity.
Qed.

(** A like that fails leaves the view exactly as it was before the
    click, so it can be tried again: whether the read is rejected, the
    read finds no record, or the PUT is rejected.  Nothing is pending
    afterwards. *)
Theorem failed_like_changes_nothing (σ : sys state S) :
  pending σ = [] →
  like_button_enabled (world σ) = true →
  let w := world σ in
  let read := GET (Receita (id w)) in
  let σ1 := Async.steps serve dispatch σ [User ClickLike; Deliver 0] in
  (((serve (remote σ) read).2 = Rejected ∨
    ∃ d, (serve (remote σ) read).2 = Resolved d ∧ receita d = None) →
   world σ1 = w ∧ pending σ1 = []) ∧
  (∀ d r, (serve (remote σ) read).2 = Resolved d → receita d = Some r →
     let update := PUT (Receita (id w))
                     {["likes" := add (or (get "likes" r) (VNum 0)) (VNum 1)]} in
     (serve (remote σ1) update).2 = Rejected →
     world (step σ1 (Deliver 0)) = w ∧ pending (step σ1 (Deliver 0)) = []).
Proof.
  intros Hp Hen w read σ1.
  pose proof (like_life σ Hp Hen) as (_ & _ & _ & Hlife).
  fold w read in Hlife. subst σ1. cbn [Async.steps foldl].
  split.
  - intros [Hx|(d & Hx & Hr)]; rewrite Hx in Hlife; [|rewrite Hr in Hlife];
      by destruct Hlife as (? & ? & _).
  - intros d r Hx Hr. cbn zeta. intros Hput. rewrite Hx, Hr in Hlife.
    destruct Hlife as (_ & _ & Hpend & _ & Hlast).
    rewrite Hput in Hlast. done.
Qed.

(** A like that goes through shows the count that was PUT, the fetched
    count plus one, whatever count was on screen and whatever the answer
    to the PUT carries; the view is then liked and no longer liking, and
    the persisted set is the old one followed by the parsed id. *)
Theorem successful_like_adopts_count (σ : sys state S) d r d2 :
  pending σ = [] →
  like_button_enabled (world σ) = true →
  let w := world σ in
  let read := GET (Receita (id w)) in
  let newLikes := add (or (get "likes" r) (VNum 0)) (VNum 1) in
  let update := PUT (Receita (id w)) {["likes" := newLikes]} in
  let σ1 := Async.steps serve dispatch σ [User ClickLike; Deliver 0] in
  let σ2 := step σ1 (Deliver 0) in
  (serve (remote σ) read).2 = Resolved d → receita d = Some r →
  (serve (remote σ1) update).2 = Resolved d2 →
  likes (world σ2) = newLikes ∧
  (∀ n, get "likes" r = VNum n → likes (world σ2) = VNum (n + 1)) ∧
  liked (world σ2) = true ∧ isLiking (world σ2) = false ∧
  liked_recipes (world σ2)
    = Some (json_element <$> (likedRecipes w ++ [parseInt (id w)])) ∧
  recipe (world σ2) = recipe w ∧
  pending σ2 = [] ∧
  (fst <$> history σ2) = (fst <$> history σ) ++ [read; update].
Proof.
  intros Hp Hen w read newLikes update σ1 σ2 Hx Hr Hput.
  pose proof (like_life σ Hp Hen) as (_ & _ & _ & Hlife).
  fold w read in Hlife.
  subst σ2 σ1. cbn [Async.steps foldl] in *.
  rewrite Hx, Hr in Hlife. fold newLikes update in Hlife.
  destruct Hlife as (_ & _ & Hpend & Hhist & Hlast).
  rewrite Hput in Hlast.
  destruct Hlast as [-> _]. rewrite Hhist.
  assert (Hk : isLiking w = false).
  { unfold like_button_enabled in Hen. fold w in Hen.
    apply andb_true_iff in Hen as [_ Hen].
    by apply negb_true_iff, orb_false_iff in Hen as [? _]. }
  split_and!; try done.
  - intros n Hn. simpl. subst newLikes. by rewrite Hn, or_count.
  - rewrite fmap_app. done.
Qed.

End AnyServer.

Lemma failed_like_changes_nothing_witness :
  world (Async.steps Store.serve dispatch unknown_view [User ClickLike; Deliver 0])
    = world unknown_view.
Proof.
  destruct (failed_like_changes_nothing Store.serve unknown_view) as [Hfail _];
    [reflexivity..|].
  apply Hfail. right. exists Store.nothing. split; reflexivity.
Defined.

Lemma successful_like_adopts_count_witness :
  likes (world (Async.steps Store.serve dispatch loaded_view
                  [User ClickLike; Deliver 0; Deliver 0])) = VNum 6.
Proof.
  destruct (successful_like_adopts_count Store.serve loaded_view
              (Store.one caldo_verde) caldo_verde
              (Store.one (<["likes" := VNum 6]> caldo_verde)))
    as (_ & Hcount & _); [reflexivity..|].
  apply (Hcount 5). reflexivity.
Defined.

End LikeFacts.

(** ** AdminDashboard: what a save leaves behind *)

Module SaveFacts.
Import Admin AdminFacts Fixtures ShapeFacts.

(** A submit that edits [editing] awaits one PUT of the translated form
    for its id.  When the answer carries a record, every record of the
    collection whose id is strictly equal to the edited id becomes that
    record in UI shape, the others stay, in place and in order; the form
    is closed and emptied and [saving] is cleared. *)
Theorem update_replaces_in_place (w : state) (c : list string) (editing : obj) :
  saving w = false → fields_missing w = false →
  editingRecipe w = Some editing →
  ∃ k,
    advance (handleSubmit w) w c
      = (setSaving true w, c,
         [Task (PUT (Receita (to_string (get "id" editing)))
                       (denormalizeRecipe (formData w))) k]) ∧
    ∀ d r prev c', receita d = Some r →
      ∃ after,
        advance (k (Resolved d)) prev c' = (after, c', []) ∧
        recipes after
          = (λ x, if strict_eq (get "id" x) (get "id" editing)
                  then normalizeRecipe r else x) <$> recipes prev ∧
        length (recipes after) = length (recipes prev) ∧
        (∀ j x, recipes prev !! j = Some x →
                strict_eq (get "id" x) (get "id" editing) = false →
                recipes after !! j = Some x) ∧
        showModal after = false ∧ editingRecipe after = None ∧
        formData after = emptyForm ∧ saving after = false ∧
        categories after = categories prev.
Proof.
  intros Hs Hm He. unfold handleSubmit. fold (fields_missing w).
  rewrite Hs, Hm, He. simpl.
  eexists. split; [reflexivity|].
  intros d r prev c' Hr. simpl. unfold normalize_response. rewrite Hr. simpl.
  eexists. split; [reflexivity|]. simpl.
  split_and!; try reflexivity.
  - by rewrite length_fmap.
  - intros j x Hj Hne. rewrite list_lookup_fmap, Hj. simpl. by rewrite Hne.
Qed.

(** A submit with no recipe being edited awaits one POST.  When the
    answer carries a record, that record in UI shape is added at the end
    of the collection and nothing else in it changes; the form is closed
    and emptied and [saving] is cleared. *)
Theorem create_appends (w : state) (c : list string) :
  saving w = false → fields_missing w = false →
  editingRecipe w = None →
  ∃ k,
    advance (handleSubmit w) w c
      = (setSaving true w, c,
         [Task (POST Receitas
                       (<["likes" := VNum 0]> (denormalizeRecipe (formData w)))) k]) ∧
    ∀ d r prev c', receita d = Some r →
      ∃ after,
        advance (k (Resolved d)) prev c' = (after, c', []) ∧
        recipes after = recipes prev ++ [normalizeRecipe r] ∧
        showModal after = false ∧ editingRecipe after = None ∧
        formData after = emptyForm ∧ saving after = false ∧
        categories after = categories prev.
Proof.
  intros Hs Hm He. unfold handleSubmit. fold (fields_missing w).
  rewrite Hs, Hm, He. simpl.
  eexists. split; [reflexivity|].
  intros d r prev c' Hr. simpl. unfold normalize_response. rewrite Hr. simpl.
  eexists. split; [reflexivity|]. simpl.
  split_and!; reflexivity.
Qed.

(** A save whose call is rejected, or answered without a record, starts
    a reload: [loading] is set and both reads are in flight together,
    whichever is answered first.  A read that resolves first changes
    nothing yet; when the other then resolves too, the collection and
    the categories become what the server sent.  A read that is
    rejected, first or last, ends the reload with the collection and
    the categories as they were; if it came first, the other read stays
    in flight as a left-over whose answer changes nothing.  In every
    case [saving] and [loading] end cleared together. *)
Theorem failed_save_reloads (w : state) (c : list string) :
  saving w = false → fields_missing w = false →
  ∃ t,
    advance (handleSubmit w) w c = (setSaving true w, c, [t]) ∧
    awaiting t = submit_request w ∧ also t = [] ∧
    ∀ x prev c',
      x = Rejected ∨ (∃ d, x = Resolved d ∧ receita d = None) →
      ∃ c1 k1 k2,
        advance (resume t x) prev c'
          = (setLoading true prev, c1,
             [Calls (GET Receitas) k1 [(GET Categorias, k2)]]) ∧
        (∀ w1 c2, ∃ c3 t',
           advance (k1 Rejected) w1 c2
             = (setSaving false (setLoading false w1), c3, [t']) ∧
           awaiting t' = GET Categorias ∧ left_over t') ∧
        (∀ w1 c2, ∃ c3 t',
           advance (k2 Rejected) w1 c2
             = (setSaving false (setLoading false w1), c3, [t']) ∧
           awaiting t' = GET Receitas ∧ left_over t') ∧
        (∀ d1 w1 c2, ∃ k,
           advance (k1 (Resolved d1)) w1 c2 = (w1, c2, [Task (GET Categorias) k]) ∧
           (∀ w2 c3, ∃ c4,
              advance (k Rejected) w2 c3
                = (setSaving false (setLoading false w2), c4, [])) ∧
           ∀ d2 w2 c3,
             advance (k (Resolved d2)) w2 c3
               = (setSaving false
                    (setLoading false
                       (setCategories (default [] (categorias d2))
                          (setRecipes
                             (λ _, normalizeRecipe <$> default [] (receitas d1))
                             w2))),
                  c3, [])) ∧
        (∀ d2 w1 c2, ∃ k,
           advance (k2 (Resolved d2)) w1 c2 = (w1, c2, [Task (GET Receitas) k]) ∧
           (∀ w2 c3, ∃ c4,
              advance (k Rejected) w2 c3
                = (setSaving false (setLoading false w2), c4, [])) ∧
           ∀ d1 w2 c3,
             advance (k (Resolved d1)) w2 c3
               = (setSaving false
                    (setLoading false
                       (setCategories (default [] (categorias d2))
                          (setRecipes
                             (λ _, normalizeRecipe <$> default [] (receitas d1))
                             w2))),
                  c3, [])).
Proof.
  intros Hs Hm. unfold handleSubmit, submit_request. fold (fields_missing w).
  rewrite Hs, Hm.
  destruct (editingRecipe w) as [editing|]; simpl;
    (eexists; split; [reflexivity|]; split; [reflexivity|]; split; [reflexivity|]);
    intros x prev c' [->|(d & -> & Hr)]; simpl;
    unfold normalize_response; rewrite ?Hr; simpl;
    (eexists _, _, _; split; [reflexivity|]; split_and!;
     [ intros; simpl; eexists _, _; split; [reflexivity|];
       split; [reflexivity|]; is_left_over
     | intros; simpl; eexists _, _; split; [reflexivity|];
       split; [reflexivity|]; is_left_over
     | intros; simpl; eexists; split; [reflexivity|]; split;
       [intros; simpl; by eexists|intros; reflexivity]
     | intros; simpl; eexists; split; [reflexivity|]; split;
       [intros; simpl; by eexists|intros; reflexivity] ]).
Qed.

(** None of the state changes of a reload touches the form. *)
Lemma reload_keeps_form w l cs :
  let w' := setSaving false (setLoading false
              (setCategories cs (setRecipes (λ _, l) (setLoading true w)))) in
  formData w' = formData w ∧ showModal w' = showModal w ∧
  editingRecipe w' = editingRecipe w ∧ saving w' = false ∧ loading w' = false.
Proof. done. Qed.

(** What the edit form holds once opened on [recipe]. *)
Lemma edit_form_fields (recipe : obj) (w : state) (c : list string) :
  ∃ w',
    advance (openEditModal recipe) w c = (w', c, []) ∧
    loading w' = loading w ∧ saving w' = saving w ∧
    showModal w' = true ∧ editingRecipe w' = Some recipe ∧
    recipes w' = recipes w ∧
    get "titulo" (formData w') = get "titulo" recipe ∧
    get "imagem_url" (formData w') = get "imagem_url" recipe ∧
    get "tempo_preparo" (formData w') = get "tempo_preparo" recipe ∧
    get "ingredientes" (formData w') = get "ingredientes" recipe ∧
    get "instrucoes" (formData w') = get "instrucoes" recipe ∧
    get "categoria_id" (formData w') = or (get "categoria" recipe) (VStr "").
Proof.
  eexists. split; [reflexivity|]. cbn [loading saving showModal editingRecipe
    recipes formData setShowModal setFormData setEditingRecipe].
  split_and!; try reflexivity; by read_fields.
Qed.

Lemma normalized_fields (row : obj) :
  get "id" (normalizeRecipe row) = get "id" row ∧
  get "titulo" (normalizeRecipe row) = or (get "titulo" row) (VStr "") ∧
  get "imagem_url" (normalizeRecipe row) = or (get "imagem" row) (VStr "") ∧
  get "tempo_preparo" (normalizeRecipe row) = or (get "tempo" row) (VStr "") ∧
  get "ingredientes" (normalizeRecipe row) = or (get "ingredientes" row) (VStr "") ∧
  get "instrucoes" (normalizeRecipe row) = or (get "preparacao" row) (VStr "") ∧
  get "categoria" (normalizeRecipe row)
    = or (get "categoria" row) (VStr "Sem categoria").
Proof. split_and!; by read_fields. Qed.

Lemma denormalized_fields (form : obj) :
  denormalizeRecipe form !! "titulo" = Some (get "titulo" form) ∧
  denormalizeRecipe form !! "imagem" = Some (get "imagem_url" form) ∧
  denormalizeRecipe form !! "tempo" = Some (get "tempo_preparo" form) ∧
  denormalizeRecipe form !! "ingredientes" = Some (get "ingredientes" form) ∧
  denormalizeRecipe form !! "preparacao" = Some (get "instrucoes" form) ∧
  denormalizeRecipe form !! "categoria" = Some (get "categoria_id" form) ∧
  denormalizeRecipe form !! "likes" = None ∧
  denormalizeRecipe form !! "id" = None.
Proof. split_and!; by read_fields. Qed.

Lemma missing_text s : missing (VStr s) = true ↔ s = "".
Proof.
  unfold missing. simpl. rewrite negb_involutive.
  by destruct (String.eqb_spec s "").
Qed.

(** Opening the edit form on a recipe that came from a sheet row and
    submitting it untouched, while nothing is being saved.  When the
    row's titulo and imagem are not empty, the submit awaits one PUT
    under the row's id whose body has the six text columns and nothing
    else, so neither likes nor id: the row's own titulo, imagem, tempo,
    ingredientes and preparacao, and as categoria the row's own when it
    is not empty and the text "Sem categoria" otherwise.  When the row's
    titulo or imagem is empty, the submit sends nothing and only writes
    the console message. *)
Theorem edit_then_save_sends_row_back (w : state) (c : list string) (row : obj) (n : Z) :
  (∀ f, f ∈ text_columns → ∃ s, row !! f = Some (VStr s)) →
  row !! "id" = Some (VNum n) →
  loading w = false → saving w = false → normalizeRecipe row ∈ recipes w →
  ∃ w',
    advance (dispatch (ClickEdit (normalizeRecipe row)) w) w c = (w', c, []) ∧
    showModal w' = true ∧ editingRecipe w' = Some (normalizeRecipe row) ∧
    (get "titulo" row ≠ VStr "" → get "imagem" row ≠ VStr "" →
     ∃ body k,
       advance (dispatch Submit w') w' c
         = (setSaving true w', c, [Task (PUT (Receita (pretty n)) body) k]) ∧
       dom body = list_to_set text_columns ∧
       (∀ f, f ∈ text_columns → f ≠ "categoria" → body !! f = row !! f) ∧
       (get "categoria" row ≠ VStr "" → body !! "categoria" = row !! "categoria") ∧
       (get "categoria" row = VStr "" →
        body !! "categoria" = Some (VStr "Sem categoria")) ∧
       body !! "likes" = None ∧ body !! "id" = None) ∧
    (get "titulo" row = VStr "" ∨ get "imagem" row = VStr "" →
     advance (dispatch Submit w') w' c
       = (w', c ++ ["Campos obrigatórios em falta"], [])).
Proof.
  intros Htext Hid Hl Hs Hin.
  assert (Hcol : ∀ f, f ∈ text_columns → ∃ t, row !! f = Some (VStr t) ∧ get f row = VStr t).
  { intros f Hf. destruct (Htext f Hf) as [t Ht]. exists t. by rewrite (get_some _ _ _ Ht). }
  destruct (Hcol "titulo") as (ti & Hti & Hti'); [in_list|].
  destruct (Hcol "imagem") as (im & Him & Him'); [in_list|].
  destruct (Hcol "tempo") as (te & Hte & Hte'); [in_list|].
  destruct (Hcol "ingredientes") as (ig & Hig & Hig'); [in_list|].
  destruct (Hcol "preparacao") as (pr & Hpr & Hpr'); [in_list|].
  destruct (Hcol "categoria") as (ca & Hca & Hca'); [in_list|].
  destruct (normalized_fields row) as (Nid & Nti & Nim & Nte & Nig & Npr & Nca).
  rewrite Hti', Him', Hte', Hig', Hpr', Hca', ?or_text in *.
  rewrite (get_some _ _ _ Hid) in Nid.
  destruct (edit_form_fields (normalizeRecipe row) w c)
    as (w' & Hopen & Hl' & Hs' & Hshow & Hed & _ & Fti & Fim & Fte & Fig & Fpr & Fca).
  rewrite Nti, Nim, Nte, Nig, Npr, Nca in *.
  assert (Hcat : get "categoria_id" (formData w')
                 = VStr (if String.eqb ca "" then "Sem categoria" else ca)).
  { rewrite Fca. unfold or. simpl.
    destruct (String.eqb ca "") eqn:E; simpl; by rewrite ?E. }
  assert (Hcat_ok : missing (get "categoria_id" (formData w')) = false).
  { rewrite Hcat. apply not_true_iff_false. rewrite missing_text.
    by destruct (String.eqb_spec ca ""). }
  exists w'. split.
  { unfold dispatch. rewrite Hl. by rewrite bool_decide_eq_true_2. }
  split; [done|]. split; [done|].
  assert (Hsub : dispatch Submit w' = handleSubmit w').
  { unfold dispatch. by rewrite Hl', Hl, Hshow. }
  rewrite Hsub. split.
  - intros Hne1 Hne2.
    assert (Hm : fields_missing w' = false).
    { unfold fields_missing. rewrite Hcat_ok, Fti, Fim, orb_false_r.
      apply orb_false_iff. split; apply not_true_iff_false;
        rewrite missing_text; congruence. }
    destruct (handleSubmit_starts w' c) as (t & Hadv & Hq & _ & Hno & _);
      [congruence|done|].
    unfold submit_request in Hq. rewrite Hed, Nid in Hq. simpl in Hq.
    destruct t as [q k o]. simpl in Hq, Hno. subst q o.
    exists (denormalizeRecipe (formData w')), k. split; [exact Hadv|].
    destruct (denormalized_fields (formData w'))
      as (Dti & Dim & Dte & Dig & Dpr & Dca & Dlikes & Did).
    split; [apply denormalize_dom|]. split_and!; [|..|done|done].
    + intros f Hf Hne. unfold text_columns in Hf.
      repeat (apply elem_of_cons in Hf as [->|Hf]);
        [..|by apply elem_of_nil in Hf]; try done; congruence.
    + intros Hne. rewrite Dca, Hcat, Hca.
      destruct (String.eqb_spec ca ""); congruence.
    + intros [= ->]. by rewrite Dca, Hcat.
  - intros Hempty.
    assert (Hm : fields_missing w' = true).
    { unfold fields_missing. rewrite Fti, Fim.
      destruct Hempty as [[= ->]|[= ->]]; simpl; by rewrite ?orb_true_r. }
    rewrite (handleSubmit_rejects w') by congruence. reflexivity.
Qed.

Lemma edit_then_save_sends_row_back_witness :
  ∃ w' body k,
    advance (dispatch (ClickEdit (normalizeRecipe caldo_verde)) at_rest) at_rest []
      = (w', [], []) ∧
    advance (dispatch Submit w') w' []
      = (setSaving true w', [], [Task (PUT (Receita "2") body) k]) ∧
    body !! "titulo" = Some (VStr "Caldo Verde").
Proof.
  destruct (edit_then_save_sends_row_back at_rest [] caldo_verde 2)
    as (w' & Hadv & _ & _ & Hsend & _).
  - intros f Hf. unfold text_columns in Hf.
    repeat (apply elem_of_cons in Hf as [->|Hf]);
      [..|by apply elem_of_nil in Hf]; eexists; vm_compute; reflexivity.
  - vm_compute. reflexivity.
  - reflexivity.
  - reflexivity.
  - unfold at_rest, three. cbn [recipes fmap list_fmap]. in_list.
  - destruct Hsend as (body & k & Hput & _ & Hsame & _).
    + vm_compute. discriminate.
    + vm_compute. discriminate.
    + exists w', body, k. split_and!; [exact Hadv|exact Hput|].
      rewrite (Hsame "titulo") by (in_list || done). vm_compute. reflexivity.
Defined.

Lemma add_counts (acc n : Z) : add (VNum acc) (VNum n) = VNum (acc + n).
Proof. done. Qed.

Lemma totalLikes_from acc (l : list obj) :
  (∀ r, r ∈ l → ∃ n, get "likes" r = VNum n) →
  foldl (λ a r, add a (get "likes" r)) (VNum acc) l
    = VNum (acc + foldr Z.add 0 ((λ r, match get "likes" r with
                                       | VNum n => n | _ => 0 end) <$> l)).
Proof.
  revert acc. induction l as [|r l IH]; intros acc Hnum;
    cbn [foldl fmap list_fmap foldr].
  - f_equal. lia.
  - destruct (Hnum r) as [n Hn]; [by left|]. rewrite Hn, add_counts.
    rewrite IH by (intros; apply Hnum; by right). f_equal. lia.
Qed.

Lemma append_assoc (a b c : string) : (a +:+ b) +:+ c = a +:+ (b +:+ c).
Proof.
  induction a as [|x a IH]; [done|].
  by rewrite !HomeFacts.append_cons, IH.
Qed.

(** Once the running total is a text, every further count is appended
    to it as text. *)
Lemma totalLikes_text acc (l : list obj) :
  foldl (λ a r, add a (get "likes" r)) (VStr acc) l
    = VStr (acc +:+ foldr (λ r rest, to_string (get "likes" r) +:+ rest) "" l).
Proof.
  revert acc. induction l as [|r l IH]; intros acc; cbn [foldl foldr].
  - f_equal. induction acc as [|x acc IHacc]; [done|].
    by rewrite HomeFacts.append_cons, <- IHacc.
  - cbn [add]. rewrite IH. by rewrite append_assoc.
Qed.

Lemma totalLikes_counts (rows : list obj) :
  (∀ row, row ∈ rows →
     get "likes" row = VUndef ∨ ∃ n, get "likes" row = VNum n) →
  totalLikes (normalizeRecipe <$> rows)
    = VNum (foldr Z.add 0 (stored_likes <$> rows)).
Proof.
  intros Hnum. unfold totalLikes. rewrite totalLikes_from.
  - f_equal. rewrite Z.add_0_l. f_equal. rewrite <- list_fmap_compose.
    apply list_fmap_ext. intros _ row Hrow%list_elem_of_lookup_2. simpl.
    unfold stored_likes. read_fields.
    destruct (Hnum row Hrow) as [->|[n ->]]; [done|by rewrite or_count].
  - intros r (row & -> & Hrow)%list_elem_of_fmap. read_fields.
    destruct (Hnum row Hrow) as [->|[n ->]]; [by exists 0|].
    exists n. by rewrite or_count.
Qed.

(** The "Total de Likes" card over a collection read from the sheet: when
    every row holds a number of likes, or none, the card shows the sum of
    the numbers held (a row without likes counts 0), never NaN.  A row
    whose like count is a non-empty text, wherever it stands, turns the
    card into text: the sum of the rows before it, then that text, then
    the like count of every later row, each written out and appended. *)
Theorem total_likes_is_a_sum (rows : list obj) :
  ((∀ row, row ∈ rows →
      get "likes" row = VUndef ∨ ∃ n, get "likes" row = VNum n) →
   totalLikes (normalizeRecipe <$> rows)
     = VNum (foldr Z.add 0 (stored_likes <$> rows))) ∧
  (∀ before row after s,
     rows = before ++ row :: after →
     (∀ r, r ∈ before →
        get "likes" r = VUndef ∨ ∃ n, get "likes" r = VNum n) →
     get "likes" row = VStr s → s ≠ "" →
     totalLikes (normalizeRecipe <$> rows)
       = VStr (pretty (foldr Z.add 0 (stored_likes <$> before)) +:+ s +:+
               foldr (λ r rest,
                        to_string (get "likes" (normalizeRecipe r)) +:+ rest)
                     "" after)).
Proof.
  split; [apply totalLikes_counts|].
  intros before row after s -> Hnum Hs Hne.
  pose proof (totalLikes_counts before Hnum) as Hsum.
  unfold totalLikes in *.
  rewrite fmap_app, foldl_app, Hsum. cbn [fmap list_fmap foldl].
  assert (Hlikes : get "likes" (normalizeRecipe row) = VStr s).
  { read_fields. rewrite Hs.
    apply truthy_or. simpl. by destruct (String.eqb_spec s ""). }
  rewrite Hlikes. cbn [add to_string].
  rewrite totalLikes_text, append_assoc. do 3 f_equal.
  induction after as [|r after IH]; [done|].
  cbn [fmap list_fmap foldr]. by rewrite IH.
Qed.

Lemma total_likes_is_a_sum_witness :
  totalLikes (normalizeRecipe <$>
                [receita_of 1 "Bacalhau" "Peixe" 3;
                 <["likes" := VStr "7"]> caldo_verde;
                 receita_of 3 "Arroz Doce" "Doces" 1])
    = VStr "371".
Proof.
  rewrite (proj2 (total_likes_is_a_sum
                    [receita_of 1 "Bacalhau" "Peixe" 3;
                     <["likes" := VStr "7"]> caldo_verde;
                     receita_of 3 "Arroz Doce" "Doces" 1])
             [receita_of 1 "Bacalhau" "Peixe" 3]
             (<["likes" := VStr "7"]> caldo_verde)
             [receita_of 3 "Arroz Doce" "Doces" 1] "7").
  - vm_compute. reflexivity.
  - reflexivity.
  - intros r ->%list_elem_of_singleton. right. eexists. vm_compute. reflexivity.
  - vm_compute. reflexivity.
  - discriminate.
Defined.

Lemma update_replaces_in_place_witness :
  ∃ k after,
    advance (handleSubmit editing_caldo) editing_caldo []
      = (setSaving true editing_caldo, [],
         [Task (PUT (Receita "2") (denormalizeRecipe (formData editing_caldo))) k]) ∧
    advance (k (Resolved (Store.one caldo_verde))) (setSaving true editing_caldo) []
      = (after, [], []) ∧
    length (recipes after) = 3%nat.
Proof.
  destruct (update_replaces_in_place editing_caldo [] (normalizeRecipe caldo_verde))
    as (k & Hstart & Hdone); [reflexivity..|].
  destruct (Hdone (Store.one caldo_verde) caldo_verde (setSaving true editing_caldo) [])
    as (after & Hadv & _ & Hlen & _); [reflexivity|].
  exists k, after. split_and!; [|exact Hadv|exact Hlen].
  rewrite Hstart. vm_compute. reflexivity.
Defined.

Lemma create_appends_witness :
  ∃ k after,
    advance (handleSubmit adding_bolo) adding_bolo []
      = (setSaving true adding_bolo, [],
         [Task (POST Receitas
                       (<["likes" := VNum 0]> (denormalizeRecipe (formData adding_bolo)))) k]) ∧
    advance (k (Resolved (Store.one caldo_verde))) (setSaving true adding_bolo) []
      = (after, [], []) ∧
    recipes after = three ++ [normalizeRecipe caldo_verde].
Proof.
  destruct (create_appends adding_bolo []) as (k & Hstart & Hdone); [reflexivity..|].
  destruct (Hdone (Store.one caldo_verde) caldo_verde (setSaving true adding_bolo) [])
    as (after & Hadv & Hrec & _); [reflexivity|].
  exists k, after. split_and!; [exact Hstart|exact Hadv|exact Hrec].
Defined.

Lemma failed_save_reloads_witness :
  ∃ t c1 k1 k2,
    advance (handleSubmit adding_bolo) adding_bolo [] = (setSaving true adding_bolo, [], [t]) ∧
    advance (resume t Rejected) (setSaving true adding_bolo) []
      = (setLoading true (setSaving true adding_bolo), c1,
         [Calls (GET Receitas) k1 [(GET Categorias, k2)]]).
Proof.
  destruct (failed_save_reloads adding_bolo []) as (t & Hstart & _ & _ & Hfail);
    [reflexivity..|].
  destruct (Hfail Rejected (setSaving true adding_bolo) [])
    as (c1 & k1 & k2 & Hadv & _); [by left|].
  exists t, c1, k1, k2. done.
Defined.

End SaveFacts.

(** ** Identifiers, from the card's link to the liked-set *)

Module IdFacts.

Ltac each_char c :=
  destruct c as [[] [] [] [] [] [] [] []]; try discriminate.

Lemma digit_char (d : N) :
  (d < 10)%N →
  is_digit (pretty_N_char d) = true ∧
  digit_of 10 (pretty_N_char d) = Some (Z.of_N d).
Proof.
  intros Hd.
  assert (d = 0 ∨ d = 1 ∨ d = 2 ∨ d = 3 ∨ d = 4 ∨ d = 5 ∨ d = 6 ∨ d = 7 ∨
          d = 8 ∨ d = 9)%N as Hcases by lia.
  repeat destruct Hcases as [->|Hcases]; try subst d; by vm_compute.
Qed.

Lemma go_all_digits (x : N) (s : string) :
  all_digits s = true → all_digits (pretty_N_go x s) = true.
Proof.
  revert s. induction (N.lt_wf_0 x) as [x _ IH]. intros s Hs.
  destruct (decide (0 < x)%N) as [Hx|Hx].
  - rewrite pretty_N_go_step by done. apply IH.
    + by apply N.div_lt.
    + cbn [all_digits]. rewrite Hs, andb_true_r.
      apply digit_char. by apply N.mod_lt.
  - assert (x = 0%N) as -> by lia. by rewrite pretty_N_go_0.
Qed.

Lemma go_value (x : N) (s : string) :
  (0 < x)%N →
  digits 10 (pretty_N_go x s) None = digits 10 s (Some (Z.of_N x)).
Proof.
  revert s. induction (N.lt_wf_0 x) as [x _ IH]. intros s Hx.
  rewrite pretty_N_go_step by done.
  destruct (digit_char (x `mod` 10)) as [_ Hd]; [by apply N.mod_lt|].
  assert (Hx10 : Z.of_N x = Z.of_N (x `div` 10) * 10 + Z.of_N (x `mod` 10)).
  { rewrite N2Z.inj_div, N2Z.inj_mod. change (Z.of_N 10) with 10.
    pose proof (Z.div_mod (Z.of_N x) 10 ltac:(lia)). lia. }
  destruct (decide (0 < x `div` 10)%N) as [Hq|Hq].
  - rewrite IH by (done || by apply N.div_lt).
    cbn [digits]. rewrite Hd. cbn [default from_option id]. by rewrite Hx10.
  - assert (x `div` 10 = 0)%N as Hz by (by apply N.le_0_r, N.nlt_ge).
    rewrite Hz in *.
    rewrite pretty_N_go_0. cbn [digits]. rewrite Hd. cbn [default from_option id].
    f_equal. f_equal. lia.
Qed.

Lemma parseInt_digits (s : string) :
  all_digits s = true →
  parseInt s = match digits 10 s None with
               | Some n => VNum (1 * n)
               | None => VNaN
               end ∧
  parseInt (String "-" s) = match digits 10 s None with
                            | Some n => VNum (-1 * n)
                            | None => VNaN
                            end.
Proof.
  intros Hs. destruct s as [|c r]; [done|].
  cbn [all_digits] in Hs. apply andb_true_iff in Hs as [Hc Hr].
  each_char c; try (split; reflexivity).
  destruct r as [|c' r]; [done|].
  cbn [all_digits] in Hr. apply andb_true_iff in Hr as [Hc' _].
  each_char c'; split; reflexivity.
Qed.

(** The card links to [/receita/${id}] and the detail view reads the id
    back with [parseInt]: for every integer id a number holds exactly,
    the text of the id parses to the id itself, negative ids included.
    So the detail view asks for the same path the id names, and a like
    appends to the persisted set the recipe's own id, which JSON stores
    unchanged. *)
Theorem parseInt_reads_the_id_back (n : Z) :
  - 2 ^ 53 < n < 2 ^ 53 →
  parseInt (to_string (VNum n)) = VNum n ∧
  Receita (to_string (VStr (to_string (VNum n)))) = Receita (to_string (VNum n)) ∧
  ∀ l, json_element <$> (l ++ [parseInt (to_string (VNum n))])
       = (json_element <$> l) ++ [VNum n].
Proof.
  intros _.
  assert (Hparse : parseInt (to_string (VNum n)) = VNum n).
  { assert (Hpos : ∀ p, pretty (N.pos p) = pretty_N_go (N.pos p) "").
    { intros p. unfold pretty, pretty_N. by destruct (decide _). }
    cbn [to_string]. destruct n as [|p|p]; [done|..].
    - change (pretty (Z.pos p)) with (pretty (N.pos p)). rewrite Hpos.
      destruct (parseInt_digits (pretty_N_go (N.pos p) "")) as [-> _];
        [by apply go_all_digits|].
      rewrite go_value by done. cbn [digits]. f_equal; lia.
    - change (pretty (Z.neg p)) with (String "-" (pretty (N.pos p))).
      rewrite Hpos.
      destruct (parseInt_digits (pretty_N_go (N.pos p) "")) as [_ ->];
        [by apply go_all_digits|].
      rewrite go_value by done. cbn [digits]. f_equal; lia. }
  split_and!; [done|done|].
  intros l. rewrite fmap_app, Hparse. done.
Qed.

Lemma parseInt_reads_the_id_back_witness :
  parseInt (to_string (VNum 42)) = VNum 42 ∧
  parseInt (to_string (VNum (-7))) = VNum (-7).
Proof.
  split.
  - apply (parseInt_reads_the_id_back 42). lia.
  - apply (parseInt_reads_the_id_back (-7)). lia.
Defined.

End IdFacts.

(** ** What the views hold once their first reads are answered *)

Module MountFacts.
Import Fixtures.

Section AnyServer.
Context {S : Type}.
Variable serve : S → request → S * reply.

(** The dashboard's first load is all or nothing.  Mounting puts both
    reads in flight together.  Whichever is answered first, once both
    are answered nothing is pending and loading has ended; the
    collection and the categories are both set from the answers when
    both reads resolved, and both stay empty when either was rejected.
    A read rejected first ends the load at once, before the other is
    answered: that answer then changes nothing in the view, and a second
    rejection is only logged by the adapter. *)
Theorem loadData_all_or_nothing (s : S) :
  let step := Async.step serve Admin.dispatch in
  (awaiting <$> pending (Admin.mount s)) = [GET Receitas] ∧
  ((λ t, fst <$> also t) <$> pending (Admin.mount s)) = [[GET Categorias]] ∧
  Admin.loading (world (Admin.mount s)) = true ∧
  (let first := serve s (GET Receitas) in
   let second := serve first.1 (GET Categorias) in
   let σ1 := step (Admin.mount s) (Deliver 0) in
   let σ2 := step σ1 (Deliver 0) in
   history σ2 = [(GET Receitas, first.2); (GET Categorias, second.2)] ∧
   pending σ2 = [] ∧
   Admin.loading (world σ2) = false ∧ Admin.saving (world σ2) = false ∧
   (first.2 = Rejected →
    Admin.loading (world σ1) = false ∧
    (awaiting <$> pending σ1) = [GET Categorias] ∧ world σ2 = world σ1) ∧
   match first.2, second.2 with
   | Resolved d1, Resolved d2 =>
       Admin.recipes (world σ2) = normalizeRecipe <$> default [] (receitas d1) ∧
       Admin.categories (world σ2) = default [] (categorias d2) ∧
       console σ2 = []
   | Resolved _, Rejected =>
       Admin.recipes (world σ2) = [] ∧ Admin.categories (world σ2) = [] ∧
       console σ2 = ["Erro ao carregar categorias:"; "Erro ao carregar dados:"]
   | Rejected, Resolved _ =>
       Admin.recipes (world σ2) = [] ∧ Admin.categories (world σ2) = [] ∧
       console σ2 = ["Erro ao carregar receitas:"; "Erro ao carregar dados:"]
   | Rejected, Rejected =>
       Admin.recipes (world σ2) = [] ∧ Admin.categories (world σ2) = [] ∧
       console σ2 = ["Erro ao carregar receitas:"; "Erro ao carregar dados:";
                     "Erro ao carregar categorias:"]
   end) ∧
  (let first := serve s (GET Categorias) in
   let second := serve first.1 (GET Receitas) in
   let σ1 := step (Admin.mount s) (DeliverOther 0 0) in
   let σ2 := step σ1 (Deliver 0) in
   history σ2 = [(GET Categorias, first.2); (GET Receitas, second.2)] ∧
   pending σ2 = [] ∧
   Admin.loading (world σ2) = false ∧ Admin.saving (world σ2) = false ∧
   (first.2 = Rejected →
    Admin.loading (world σ1) = false ∧
    (awaiting <$> pending σ1) = [GET Receitas] ∧ world σ2 = world σ1) ∧
   match second.2, first.2 with
   | Resolved d1, Resolved d2 =>
       Admin.recipes (world σ2) = normalizeRecipe <$> default [] (receitas d1) ∧
       Admin.categories (world σ2) = default [] (categorias d2) ∧
       console σ2 = []
   | Rejected, Resolved _ =>
       Admin.recipes (world σ2) = [] ∧ Admin.categories (world σ2) = [] ∧
       console σ2 = ["Erro ao carregar receitas:"; "Erro ao carregar dados:"]
   | Resolved _, Rejected =>
       Admin.recipes (world σ2) = [] ∧ Admin.categories (world σ2) = [] ∧
       console σ2 = ["Erro ao carregar categorias:"; "Erro ao carregar dados:"]
   | Rejected, Rejected =>
       Admin.recipes (world σ2) = [] ∧ Admin.categories (world σ2) = [] ∧
       console σ2 = ["Erro ao carregar categorias:"; "Erro ao carregar dados:";
                     "Erro ao carregar receitas:"]
   end).
Proof.
  intros step. subst step. split_and!; try reflexivity.
  - intros first second σ1 σ2. subst σ2 σ1 second first.
    unfold Admin.mount, start. simpl. unfold deliver, answer. simpl.
    destruct (serve s (GET Receitas)) as [s1 [|d1]]; simpl;
      unfold deliver, answer; simpl;
      destruct (serve s1 (GET Categorias)) as [s2 [|d2]]; simpl;
      split_and!; done.
  - intros first second σ1 σ2. subst σ2 σ1 second first.
    unfold Admin.mount, start. simpl. unfold deliver_other, answer. simpl.
    destruct (serve s (GET Categorias)) as [s1 [|d2]]; simpl;
      unfold deliver, answer; simpl;
      destruct (serve s1 (GET Receitas)) as [s2 [|d1]]; simpl;
      split_and!; done.
Qed.

(** The list view's load: when the read resolves the collection is the
    answer's rows in UI shape, in order; when it is rejected the
    collection stays empty.  Loading ends in both cases, and the search
    text and the page typed meanwhile are kept. *)
Theorem loadRecipes_outcomes (lower : string → string) (s : S) (typed : string) :
  let σ := Async.steps serve (HomeView.dispatch lower) (HomeView.mount s)
             [User (HomeView.Type_ typed); Deliver 0] in
  HomeView.loading (world σ) = false ∧ pending σ = [] ∧
  HomeView.searchTerm (world σ) = typed ∧ HomeView.currentPage (world σ) = 1 ∧
  match (serve s (GET Receitas)).2 with
  | Resolved d =>
      HomeView.recipes (world σ) = normalizeRecipe <$> default [] (receitas d)
  | Rejected => HomeView.recipes (world σ) = []
  end.
Proof.
  intros σ. subst σ. unfold HomeView.mount, start. simpl.
  unfold start. simpl. unfold deliver, answer. simpl.
  assert (Hterm : HomeView.searchTerm
                    (HomeView.setSearchTerm typed
                       (HomeView.setLoading true HomeView.initial)) = typed ∧
                  HomeView.currentPage
                    (HomeView.setSearchTerm typed
                       (HomeView.setLoading true HomeView.initial)) = 1).
  { unfold HomeView.setSearchTerm. simpl.
    destruct (String.eqb_spec typed ""); by subst. }
  destruct Hterm as [Hterm Hpage].
  assert (Hrec : HomeView.recipes
                   (HomeView.setSearchTerm typed
                      (HomeView.setLoading true HomeView.initial)) = []).
  { unfold HomeView.setSearchTerm. simpl.
    by destruct (String.eqb typed ""). }
  destruct (serve s (GET Receitas)) as [s1 [|d]]; simpl; split_and!; done.
Qed.

End AnyServer.

End MountFacts.
